(** * Certificate inspection engine of CertInspector.py

    A shallow embedding of the functions of [CertInspector.py] that make up
    the certificate inspection engine: [get_cert_info],
    [check_cert_transparency], [analyze_cipher_strength],
    [days_until_expiry] and the Scan, Check Ciphers and Export JSON branches
    of [main], followed by the properties the specification states about
    them. *)

From Stdlib Require Import ZArith NArith String Ascii List Bool Lia DecimalString.
From Stdlib Require Import SpecFloat.
From stdpp Require Import base option list gmap strings fin_maps.

Set Warnings "-register-all".
Local Open Scope string_scope.
Local Open Scope Z_scope.

(** ** Python values and control effects *)

(** The exception classes the engine can meet.  All of them derive from
    [Exception], so every one is caught by [except Exception]. *)
Inductive exn : Type :=
  | OSError                 (* socket.gaierror, ConnectionRefusedError, ... *)
  | SSLError                (* ssl.SSLError, ssl.SSLCertVerificationError *)
  | TimeoutError            (* socket.timeout *)
  | KeyError (key : string)
  | IndexError
  | TypeError
  | ValueError
  | RequestsConnectionError (* requests.exceptions.ConnectionError *)
  | RequestsTimeout         (* requests.exceptions.Timeout *)
  | JSONDecodeError.        (* requests.exceptions.JSONDecodeError *)

(** What a call does: it returns a value, raises, or never comes back
    because it waits on a peer without a deadline. *)
Inductive outcome (A : Type) : Type :=
  | Returns (a : A)
  | Raises (e : exn)
  | Blocks.
Arguments Returns {A} a.
Arguments Raises {A} e.
Arguments Blocks {A}.

(** Parsed JSON, as [response.json()] and [json.dump] see it; a number
    with a fraction or an exponent is a [float]. *)
Inductive json : Type :=
  | JNull
  | JBool (b : bool)
  | JInt (n : Z)
  | JFloat (x : spec_float)
  | JStr (s : string)
  | JArr (items : list json)
  | JObj (fields : list (string * json)).

(** The number of characters of a text held as UTF-8: the bytes that do
    not continue a character. *)
Fixpoint characters (s : string) : nat :=
  match s with
  | EmptyString => O
  | String c rest =>
      let n := nat_of_ascii c in
      if (128 <=? n)%nat && (n <=? 191)%nat then characters rest
      else S (characters rest)
  end.

(** The keys of an object, each once: a [dict] holds a repeated key once. *)
Fixpoint distinct_keys (fields : list (string * json)) : list string :=
  match fields with
  | [] => []
  | (k, _) :: rest =>
      let ks := distinct_keys rest in
      if existsb (String.eqb k) ks then ks else k :: ks
  end.

(** [len(x)] on a parsed JSON value. *)
Definition len (x : json) : outcome Z :=
  match x with
  | JArr items => Returns (Z.of_nat (List.length items))
  | JObj fields => Returns (Z.of_nat (List.length (distinct_keys fields)))
  | JStr s => Returns (Z.of_nat (characters s))
  | JNull | JBool _ | JInt _ | JFloat _ => Raises TypeError
  end.

(** ** The network *)

(** A peer either answers, [latency] being the longest it keeps the caller
    waiting on the socket before the answer is complete, or stays silent for
    ever. *)
Inductive reply (A : Type) : Type :=
  | Answer (latency : N) (a : A)
  | Failure (latency : N) (e : exn)
  | Silent.
Arguments Answer {A} latency a.
Arguments Failure {A} latency e.
Arguments Silent {A}.

(** A blocking call with an optional timeout on each wait on the socket:
    without one ([None], the socket default) the caller waits as long as the
    peer takes. *)
Definition await {A} (timeout : option N) (on_timeout : exn) (r : reply A)
  : outcome A :=
  match r, timeout with
  | Silent, None => Blocks
  | Silent, Some _ => Raises on_timeout
  | Answer t a, None => Returns a
  | Answer t a, Some d => if (d <? t)%N then Raises on_timeout else Returns a
  | Failure t e, None => Raises e
  | Failure t e, Some d => if (d <? t)%N then Raises on_timeout else Raises e
  end.

(** One relative distinguished name: a tuple of (attribute, value) pairs. *)
Definition rdn : Type := list (string * string).

(** The dictionary [SSLSocket.getpeercert()] returns; a key the dictionary
    lacks is [None]. *)
Record peercert : Type := {
  cert_issuer : option (list rdn);
  cert_subject : option (list rdn);
  notBefore : option string;
  notAfter : option string;
  serialNumber : option string
}.

(** An established TLS session: [getpeercert()] and [cipher()], the latter
    a (name, protocol, secret bits) triple or [None]. *)
Record session : Type := {
  getpeercert : peercert;
  cipher : option (string * string * Z)
}.

(** [requests.Response]: the status code and what [.json()] gives, [None]
    when the body is not JSON. *)
Record response : Type := {
  status_code : Z;
  body_json : option json
}.

(** What the outside world answers at one moment. *)
Record network : Type := {
  tcp_connect : string -> Z -> reply unit;
  tls_handshake : string -> reply session;
  http_get : string -> reply response
}.

(** Operations that went over the wire, oldest first. *)
Inductive net_op : Type :=
  | TcpConnect (host : string) (port : Z)
  | TlsHandshake (server_hostname : string)
  | HttpGet (url : string).

(** ** Process state *)

Record cert_info : Type := {
  domain : string;
  issuer : string;
  valid_from : string;
  valid_to : string;
  serial_number : string;
  is_self_signed : bool
}.

(** The module-level [cert_cache] dictionary, and a record of the network
    operations performed so far. *)
Record world : Type := {
  cert_cache : gmap string cert_info;
  wire : list net_op
}.

Definition M (A : Type) : Type := world -> outcome A * world.

Definition ret {A} (a : A) : M A := fun w => (Returns a, w).

Definition bind {A B} (c : M A) (k : A -> M B) : M B :=
  fun w =>
    match c w with
    | (Returns a, w') => k a w'
    | (Raises e, w') => (Raises e, w')
    | (Blocks, w') => (Blocks, w')
    end.

Definition lift {A} (o : outcome A) : M A := fun w => (o, w).

Definition raise {A} (e : exn) : M A := lift (Raises e).

(** [try: body except Exception: handler]. *)
Definition try_except {A} (body : M A) (handler : exn -> M A) : M A :=
  fun w =>
    match body w with
    | (Raises e, w') => handler e w'
    | r => r
    end.

Definition sent (op : net_op) : M unit :=
  fun w => (Returns tt, {| cert_cache := cert_cache w; wire := wire w ++ [op] |}).

Definition cache_get (key : string) : M (option cert_info) :=
  fun w => (Returns (cert_cache w !! key), w).

Definition cache_set (key : string) (v : cert_info) : M unit :=
  fun w => (Returns tt, {| cert_cache := <[key := v]> (cert_cache w); wire := wire w |}).

Declare Scope py_scope.
Delimit Scope py_scope with py.
Notation "x <- c ;; k" := (bind c (fun x => k))
  (at level 100, c at next level, right associativity) : py_scope.
Notation "c ;;; k" := (bind c (fun _ => k))
  (at level 100, right associativity) : py_scope.
Local Open Scope py_scope.

(** A blocking [connect] without a timeout: the operating system itself
    gives up on a peer that never answers, and the call raises
    [TimeoutError]. *)
Definition connect (r : reply unit) : outcome unit :=
  match r with
  | Answer _ a => Returns a
  | Failure _ e => Raises e
  | Silent => Raises TimeoutError
  end.

(** [socket.create_connection((host, 443))] followed by
    [context.wrap_socket(sock, server_hostname=host)]; both are called
    without a timeout, so the socket default ([None]) applies: the handshake
    waits for the peer as long as it takes. *)
Definition open_tls (net : network) (host : string) : M session :=
  sent (TcpConnect host 443) ;;;
  lift (connect (tcp_connect net host 443)) ;;;
  sent (TlsHandshake host) ;;;
  lift (await None TimeoutError (tls_handshake net host)).

(** ** Certificate Retriever *)

(** [x[0] for x in name]: the first pair of every RDN; an empty RDN has no
    element 0. *)
Fixpoint first_pairs (name : list rdn) : outcome (list (string * string)) :=
  match name with
  | [] => Returns []
  | x :: rest =>
      match x with
      | [] => Raises IndexError
      | kv :: _ =>
          match first_pairs rest with
          | Returns kvs => Returns (kv :: kvs)
          | Raises e => Raises e
          | Blocks => Blocks
          end
      end
  end.

(** [dict(pairs)]: pairs are inserted from left to right, a later pair
    replaces an earlier one with the same key. *)
Definition dict (pairs : list (string * string)) : gmap string string :=
  foldl (fun m kv => <[kv.1 := kv.2]> m) ∅ pairs.

(** [d[key]] on a dictionary with an optional entry. *)
Definition subscript {A} (key : string) (entry : option A) : M A :=
  match entry with
  | Some v => ret v
  | None => raise (KeyError key)
  end.

(** [d.get(key, default)]. *)
Definition get_default {A} (entry : option A) (default : A) : A :=
  match entry with
  | Some v => v
  | None => default
  end.

(** Lines 49 to 59 of [get_cert_info]: from the peer certificate to the
    [cert_info] dictionary. *)
Definition cert_info_of (domain : string) (cert : peercert) : M cert_info :=
  issuer_name <- subscript "issuer" (cert_issuer cert) ;;
  issuer_pairs <- lift (first_pairs issuer_name) ;;
  let issuer := dict issuer_pairs in
  subject_name <- subscript "subject" (cert_subject cert) ;;
  subject_pairs <- lift (first_pairs subject_name) ;;
  let subject := dict subject_pairs in
  not_before <- subscript "notBefore" (notBefore cert) ;;
  not_after <- subscript "notAfter" (notAfter cert) ;;
  ret {| domain := domain;
         issuer := get_default (issuer !! "organizationName") "Unknown";
         valid_from := not_before;
         valid_to := not_after;
         serial_number := get_default (serialNumber cert) "N/A";
         is_self_signed := bool_decide (issuer = subject) |}.

Definition get_cert_info (net : network) (domain : string) : M cert_info :=
  cached <- cache_get domain ;;
  match cached with
  | Some info => ret info
  | None =>
      ssock <- open_tls net domain ;;
      let cert := getpeercert ssock in
      info <- cert_info_of domain cert ;;
      cache_set domain info ;;;
      ret info
  end.

(** ** Transparency Log Correlator *)

Definition CRTSH_URL (domain : string) : string :=
  "https://crt.sh/?q=" ++ domain ++ "&output=json".

(** [requests.get(url, timeout=10)]: the timeout bounds each wait on the
    socket, not the request as a whole. *)
Definition requests_get (net : network) (url : string) (timeout : N) : M response :=
  sent (HttpGet url) ;;;
  lift (await (Some timeout) RequestsTimeout (http_get net url)).

(** [response.json()]. *)
Definition response_json (r : response) : M json :=
  match body_json r with
  | Some v => ret v
  | None => raise JSONDecodeError
  end.

Definition check_cert_transparency (net : network) (domain : string) : M json :=
  try_except
    (response <- requests_get net (CRTSH_URL domain) 10 ;;
     if status_code response =? 200 then response_json response
     else ret (JArr []))
    (fun e => ret (JArr [])).

(** ** Cipher Strength Analyzer *)

(** [needle in haystack] on [str]: substring test. *)
Fixpoint str_in (needle haystack : string) : bool :=
  String.prefix needle haystack ||
  match haystack with
  | EmptyString => false
  | String _ rest => str_in needle rest
  end.

Record cipher_info : Type := {
  cipher_name : string;
  protocol : string;
  bits : Z;
  is_weak : bool
}.

Definition analyze_cipher_strength (net : network) (domain : string)
  : M (option cipher_info) :=
  try_except
    (ssock <- open_tls net domain ;;
     match cipher ssock with
     | None => raise TypeError
     | Some (c0, c1, c2) =>
         ret (Some {| cipher_name := c0;
                      protocol := c1;
                      bits := c2;
                      is_weak := str_in "RC4" c0 || str_in "DES" c0 || (c2 <? 128) |})
     end)
    (fun e => ret None).

(** ** Expiry Calculator *)

(** A naive [datetime.datetime]. *)
Record datetime : Type := {
  year : Z;
  month : Z;
  day : Z;
  hour : Z;
  minute : Z;
  second : Z;
  microsecond : Z
}.

(** A normalised [datetime.timedelta]. *)
Record timedelta : Type := {
  days : Z;
  seconds : Z;
  microseconds : Z
}.

Definition is_leap (y : Z) : bool :=
  (y mod 4 =? 0) && (negb (y mod 100 =? 0) || (y mod 400 =? 0)).

Definition days_before_year (y : Z) : Z :=
  let p := y - 1 in p * 365 + p / 4 - p / 100 + p / 400.

Definition days_in_month (y m : Z) : Z :=
  if (m =? 2) && is_leap y then 29
  else nth (Z.to_nat m) [-1; 31; 28; 31; 30; 31; 30; 31; 31; 30; 31; 30; 31] 0.

Definition days_before_month (y m : Z) : Z :=
  nth (Z.to_nat m) [-1; 0; 31; 59; 90; 120; 151; 181; 212; 243; 273; 304; 334] 0
  + (if (2 <? m) && is_leap y then 1 else 0).

Definition ymd2ord (y m d : Z) : Z :=
  days_before_year y + days_before_month y m + d.

Definition toordinal (t : datetime) : Z := ymd2ord (year t) (month t) (day t).

(** [timedelta(days, seconds, microseconds)] on integers: the carries of
    the constructor, with Python's flooring [divmod]. *)
Definition mk_timedelta (d s us : Z) : timedelta :=
  let s := s + us / 1000000 in
  let us := us mod 1000000 in
  let d := d + s / 86400 in
  let s := s mod 86400 in
  {| days := d; seconds := s; microseconds := us |}.

(** [a - b] on two naive datetimes. *)
Definition datetime_sub (a b : datetime) : timedelta :=
  let secs1 := second a + minute a * 60 + hour a * 3600 in
  let secs2 := second b + minute b * 60 + hour b * 3600 in
  mk_timedelta (toordinal a - toordinal b) (secs1 - secs2)
               (microsecond a - microsecond b).

(** The range checks of the [datetime] constructor. *)
Definition datetime_ok (t : datetime) : bool :=
  (1 <=? year t) && (year t <=? 9999) &&
  (1 <=? month t) && (month t <=? 12) &&
  (1 <=? day t) && (day t <=? days_in_month (year t) (month t)) &&
  (0 <=? hour t) && (hour t <=? 23) &&
  (0 <=? minute t) && (minute t <=? 59) &&
  (0 <=? second t) && (second t <=? 59) &&
  (0 <=? microsecond t) && (microsecond t <=? 999999).

(** *** [datetime.strptime(s, "%b %d %H:%M:%S %Y %Z")] *)

Definition is_space (c : ascii) : bool :=
  let n := nat_of_ascii c in
  (n =? 32)%nat || ((9 <=? n)%nat && (n <=? 13)%nat)
  || ((28 <=? n)%nat && (n <=? 31)%nat).

Definition is_digit (c : ascii) : bool :=
  let n := nat_of_ascii c in (48 <=? n)%nat && (n <=? 57)%nat.

Definition lower (c : ascii) : ascii :=
  let n := nat_of_ascii c in
  if (65 <=? n)%nat && (n <=? 90)%nat then ascii_of_nat (n + 32) else c.

Fixpoint lowercase (s : string) : string :=
  match s with
  | EmptyString => EmptyString
  | String c rest => String (lower c) (lowercase rest)
  end.

(** The longest prefix whose characters satisfy [p], and what follows. *)
Fixpoint span (p : ascii -> bool) (s : string) : string * string :=
  match s with
  | EmptyString => (EmptyString, EmptyString)
  | String c rest =>
      if p c then let (a, b) := span p rest in (String c a, b)
      else (EmptyString, s)
  end.

Fixpoint digits_value (acc : Z) (s : string) : Z :=
  match s with
  | EmptyString => acc
  | String c rest => digits_value (acc * 10 + (Z.of_nat (nat_of_ascii c) - 48)) rest
  end.

(** A decimal field of [lo] to [hi] digits at the head of [s]. *)
Definition number (lo hi : nat) (s : string) : option (Z * string) :=
  let (ds, rest) := span is_digit s in
  let n := String.length ds in
  if (lo <=? n)%nat && (n <=? hi)%nat then Some (digits_value 0 ds, rest)
  else None.

(** One or more whitespace characters ([\s+]). *)
Definition spaces (s : string) : option string :=
  let (sp, rest) := span is_space s in
  match sp with
  | EmptyString => None
  | _ => Some rest
  end.

Definition expect (c : ascii) (s : string) : option string :=
  match s with
  | String c' rest => if Ascii.eqb c c' then Some rest else None
  | EmptyString => None
  end.

Definition month_names : list string :=
  ["jan"; "feb"; "mar"; "apr"; "may"; "jun";
   "jul"; "aug"; "sep"; "oct"; "nov"; "dec"].

Fixpoint index_of (x : string) (l : list string) (i : Z) : option Z :=
  match l with
  | [] => None
  | y :: rest => if String.eqb x y then Some i else index_of x rest (i + 1)
  end.

(** [%b]: an abbreviated month name of the C locale, in any letter case. *)
Definition month_abbr (s : string) : option (Z * string) :=
  let name := lowercase (substring 0 3 s) in
  match index_of name month_names 1 with
  | Some m => Some (m, substring 3 (String.length s - 3) s)
  | None => None
  end.

(** [%Z]: [UTC] or [GMT] in any letter case, up to the end of the input.
    The names of the machine's local zone, which [strptime] takes as well,
    are left out: certificates carry [GMT]. *)
Definition zone (s : string) : bool :=
  let z := lowercase s in String.eqb z "utc" || String.eqb z "gmt".

(** The parse itself, on ASCII input; [None] stands for the [ValueError] of
    [strptime], whether the text does not match the format or the fields
    are out of range for [datetime]. *)
Definition parse_cert_date (s : string) : option datetime :=
  '(mo, s) ← month_abbr s;
  s ← spaces s;
  '(d, s) ← number 1 2 s;
  s ← spaces s;
  '(h, s) ← number 1 2 s;
  s ← expect ":" s;
  '(mi, s) ← number 1 2 s;
  s ← expect ":" s;
  '(sec, s) ← number 1 2 s;
  s ← spaces s;
  '(y, s) ← number 4 4 s;
  s ← spaces s;
  if zone s then
    let t := {| year := y; month := mo; day := d; hour := h; minute := mi;
                second := sec; microsecond := 0 |} in
    if datetime_ok t then Some t else None
  else None.

Definition strptime (s : string) : outcome datetime :=
  match parse_cert_date s with
  | Some t => Returns t
  | None => Raises ValueError
  end.

(** [utcnow] is the reading of the clock, [datetime.utcnow()]. *)
Definition days_until_expiry (utcnow : datetime) (expiry_date : string) : outcome Z :=
  match strptime expiry_date with
  | Returns expiry => Returns (days (datetime_sub expiry utcnow))
  | Raises e => Raises e
  | Blocks => Blocks
  end.

(** ** Report layer: the branches of [main] *)

(** [str(n)] on an [int]. *)
Definition str (n : Z) : string := NilEmpty.string_of_int (Z.to_int n).

(** Line 160: the mark shown next to the number of days left. *)
Definition expiry_status (days_left : Z) : string :=
  if 30 <? days_left then "✅"
  else if 0 <? days_left then "⚠️"
  else "❌".

(** Line 161. *)
Definition status_line (days_left : Z) : string :=
  "Status: " ++ expiry_status days_left ++ " " ++ str days_left ++ " days remaining".

(** The Check Ciphers branch: the new content of the output pane. *)
Definition on_check_ciphers (net : network) (domain output : string) : M string :=
  cipher_info <- analyze_cipher_strength net domain ;;
  match cipher_info with
  | Some c =>
      let output := output ++ String "010" "=== Cipher Analysis ===" ++ String "010" "" in
      let output := output ++ "Protocol: " ++ protocol c ++ String "010" "" in
      let output := output ++ "Cipher: " ++ cipher_name c ++ " (" ++ str (bits c)
                    ++ " bits)" ++ String "010" "" in
      let output :=
        if is_weak c
        then output ++ "❌ WEAK CIPHER DETECTED - Consider upgrading!" ++ String "010" ""
        else output ++ "✅ Cipher strength appears secure" ++ String "010" "" in
      ret output
  | None => ret output
  end.

Definition digit (n : Z) : ascii := ascii_of_nat (48 + Z.to_nat (n mod 10)).

Definition pad2 (n : Z) : string := String (digit (n / 10)) (String (digit n) "").
Definition pad4 (n : Z) : string := pad2 (n / 100) ++ pad2 (n mod 100).
Definition pad6 (n : Z) : string := pad2 (n / 10000) ++ pad4 (n mod 10000).

(** [datetime.isoformat()] of a naive datetime. *)
Definition isoformat (t : datetime) : string :=
  pad4 (year t) ++ "-" ++ pad2 (month t) ++ "-" ++ pad2 (day t) ++ "T" ++
  pad2 (hour t) ++ ":" ++ pad2 (minute t) ++ ":" ++ pad2 (second t) ++
  (if microsecond t =? 0 then "" else "." ++ pad6 (microsecond t)).

(** [s.replace(old, new)] for single characters. *)
Fixpoint replace (old new : ascii) (s : string) : string :=
  match s with
  | EmptyString => EmptyString
  | String c rest => String (if Ascii.eqb c old then new else c) (replace old new rest)
  end.

Definition cert_info_json (c : cert_info) : json :=
  JObj [("domain", JStr (domain c));
        ("issuer", JStr (issuer c));
        ("valid_from", JStr (valid_from c));
        ("valid_to", JStr (valid_to c));
        ("serial_number", JStr (serial_number c));
        ("is_self_signed", JBool (is_self_signed c))].

Definition cipher_info_json (c : option cipher_info) : json :=
  match c with
  | None => JNull
  | Some c =>
      JObj [("cipher_name", JStr (cipher_name c));
            ("protocol", JStr (protocol c));
            ("bits", JInt (bits c));
            ("is_weak", JBool (is_weak c))]
  end.

(** The Export JSON branch: the file name and the report handed to
    [json.dump]. *)
Definition on_export_json (net : network) (utcnow : datetime) (domain : string)
  : M (string * json) :=
  cert_info <- get_cert_info net domain ;;
  cipher_info <- analyze_cipher_strength net domain ;;
  ct_logs <- check_cert_transparency net domain ;;
  n <- lift (len ct_logs) ;;
  let report :=
    JObj [("domain", JStr domain);
          ("certificate", cert_info_json cert_info);
          ("cipher", cipher_info_json cipher_info);
          ("ct_log_entries", JInt n);
          ("scan_time", JStr (isoformat utcnow))] in
  let filename := "ssl_report_" ++ replace "." "_" domain ++ ".json" in
  ret (filename, report).

(** The Export JSON branch with the answers of the network at each of its
    three calls: the retriever, the analyzer and the correlator each make
    their own connection, and what the first meets says nothing about the
    next.  [on_export_json] is the case of the same answers throughout. *)
Definition on_export_json_at (net1 net2 net3 : network) (utcnow : datetime)
    (domain : string) : M (string * json) :=
  cert_info <- get_cert_info net1 domain ;;
  cipher_info <- analyze_cipher_strength net2 domain ;;
  ct_logs <- check_cert_transparency net3 domain ;;
  n <- lift (len ct_logs) ;;
  let report :=
    JObj [("domain", JStr domain);
          ("certificate", cert_info_json cert_info);
          ("cipher", cipher_info_json cipher_info);
          ("ct_log_entries", JInt n);
          ("scan_time", JStr (isoformat utcnow))] in
  let filename := "ssl_report_" ++ replace "." "_" domain ++ ".json" in
  ret (filename, report).

(** ** The Scan branch and the event loop of [main] *)

(** Truthiness of a parsed JSON value ([if ct_logs:]). *)
Definition truthy (x : json) : bool :=
  match x with
  | JNull => false
  | JBool b => b
  | JInt n => negb (n =? 0)
  | JFloat x => match x with S754_zero _ => false | _ => true end
  | JStr s => negb (String.eqb s "")
  | JArr items => match items with [] => false | _ => true end
  | JObj fields => match fields with [] => false | _ => true end
  end.

(** [sep.join(items)]. *)
Fixpoint join (sep : string) (items : list string) : string :=
  match items with
  | [] => ""
  | x :: rest =>
      match rest with
      | [] => x
      | _ => x ++ sep ++ join sep rest
      end
  end.

Definition newline : string := String "010" "".

(** Two tasks submitted to a [ThreadPoolExecutor] inside a [with] block and
    joined by [first.result()], then [second.result()].  Leaving the block
    waits for both tasks, so a task that never ends blocks the caller even
    when the other one raised; otherwise the first task's exception comes
    first.  The two tasks of [main] share nothing but the record of network
    operations, in which the first task's operations are listed first. *)
Definition submit_both {A B} (first : M A) (second : M B) : M (A * B) :=
  fun w =>
    let (o1, w1) := first w in
    let (o2, w2) := second w1 in
    (match o1, o2 with
     | Blocks, _ => Blocks
     | _, Blocks => Blocks
     | Raises e, _ => Raises e
     | Returns _, Raises e => Raises e
     | Returns a, Returns b => Returns (a, b)
     end, w2).

(** The Scan branch: the text it puts in the output pane. *)
Definition on_scan (net : network) (utcnow : datetime) (domain : string) : M string :=
  results <- submit_both (get_cert_info net domain) (check_cert_transparency net domain) ;;
  let cert_info := results.1 in
  let ct_logs := results.2 in
  let output :=
    ["=== Certificate Details for " ++ domain ++ " ===" ++ newline;
     "Issuer: " ++ issuer cert_info;
     "Valid From: " ++ valid_from cert_info;
     "Expires On: " ++ valid_to cert_info] in
  days_left <- lift (days_until_expiry utcnow (valid_to cert_info)) ;;
  let output := (output ++ [status_line days_left])%list in
  let output :=
    if is_self_signed cert_info
    then (output ++ [(newline ++ "⚠️ WARNING: Self-signed certificate detected!")%string])%list
    else output in
  if truthy ct_logs then
    n <- lift (len ct_logs) ;;
    ret (join newline
           (output ++ [(newline ++ "Found " ++ str n
                        ++ " historical certificates in CT logs")%string])%list)
  else ret (join newline output).

(** Whitespace for [str.strip()], on ASCII text. *)
Definition is_py_space (c : ascii) : bool :=
  let n := nat_of_ascii c in
  (n =? 32)%nat || ((9 <=? n)%nat && (n <=? 13)%nat) || ((28 <=? n)%nat && (n <=? 31)%nat).

Fixpoint lstrip (s : string) : string :=
  match s with
  | EmptyString => EmptyString
  | String c rest => if is_py_space c then lstrip rest else s
  end.

Fixpoint rstrip (s : string) : string :=
  match s with
  | EmptyString => EmptyString
  | String c rest =>
      match rstrip rest with
      | EmptyString => if is_py_space c then EmptyString else String c EmptyString
      | kept => String c kept
      end
  end.

(** [s.strip()], for a text whose whitespace is ASCII (Python strips the
    other Unicode spaces as well). *)
Definition strip (s : string) : string := rstrip (lstrip s).

(** What [window.read()] reports: the window was closed, or one of the
    buttons was pressed. *)
Inductive event : Type :=
  | EvWinClosed
  | EvExit
  | EvClear
  | EvScan
  | EvCheckCiphers
  | EvExportJSON.

(** The two elements of the window the loop reads and updates. *)
Record window : Type := {
  DOMAIN : string;
  OUTPUT : string
}.

(** One turn of the [while True] loop: it leaves the loop, or goes on with
    the window as updated and, after an export, the file written. *)
Inductive turn : Type :=
  | Break
  | Continue (win : window) (saved : option (string * json)).

Definition main_step (net : network) (utcnow : datetime) (ev : event) (win : window)
  : M turn :=
  match ev with
  | EvWinClosed | EvExit => ret Break
  | EvClear => ret (Continue {| DOMAIN := ""; OUTPUT := "" |} None)
  | EvScan | EvCheckCiphers | EvExportJSON =>
      let domain := strip (DOMAIN win) in
      if String.eqb domain "" then ret (Continue win None)
      else
        match ev with
        | EvScan =>
            output <- on_scan net utcnow domain ;;
            ret (Continue {| DOMAIN := DOMAIN win; OUTPUT := output |} None)
        | EvCheckCiphers =>
            output <- on_check_ciphers net domain (OUTPUT win) ;;
            ret (Continue {| DOMAIN := DOMAIN win; OUTPUT := output |} None)
        | EvExportJSON =>
            saved <- on_export_json net utcnow domain ;;
            ret (Continue win (Some saved))
        | _ => ret (Continue win None)
        end
  end.

(** What happens around one [window.read()]: the answers of the network and
    the clock at that time, the event, and the text of the domain field. *)
Record input : Type := {
  answers : network;
  clock : datetime;
  pressed : event;
  typed : string
}.

(** The loop of [main] over the inputs of a session: the content of the
    output pane and the files written, oldest first, when the loop is left
    or the inputs run out. *)
Fixpoint main_loop (inputs : list input) (output : string)
    (files : list (string * json)) : M (string * list (string * json)) :=
  match inputs with
  | [] => ret (output, files)
  | i :: later =>
      t <- main_step (answers i) (clock i) (pressed i)
             {| DOMAIN := typed i; OUTPUT := output |} ;;
      match t with
      | Break => ret (output, files)
      | Continue win saved =>
          main_loop later (OUTPUT win)
            (match saved with Some f => files ++ [f] | None => files end)%list
      end
  end.

(** ** The ASCII preview of the NASA explorer (py-NASA-APOD.py) *)

(** [s[i]] on a [str]: a negative index counts from the end. *)
Definition str_getitem (s : string) (i : Z) : outcome ascii :=
  let n := Z.of_nat (String.length s) in
  let j := if i <? 0 then i + n else i in
  if (0 <=? j) && (j <? n) then
    match String.get (Z.to_nat j) s with
    | Some c => Returns c
    | None => Raises IndexError
    end
  else Raises IndexError.

(** [range(n)]. *)
Definition range (n : Z) : list Z := map Z.of_nat (seq 0 (Z.to_nat n)).

Definition ascii_chars : string := "@%#*+=-:. ".

(** The inner loop of [display_image_in_terminal]: one line of the preview,
    from the pixels of row [y] of the resized greyscale image. *)
Fixpoint preview_line (getpixel : Z -> Z -> Z) (y : Z) (xs : list Z) (line : string)
  : outcome string :=
  match xs with
  | [] => Returns line
  | x :: rest =>
      let pixel := getpixel x y in
      let n := Z.of_nat (String.length ascii_chars) in
      let char_idx := Z.min (n - 1) (pixel * n / 256) in
      match str_getitem ascii_chars char_idx with
      | Returns c => preview_line getpixel y rest (line ++ String c "")
      | Raises e => Raises e
      | Blocks => Blocks
      end
  end.

(** The outer loop: the lines printed, oldest first, and the exception that
    ended the loop early, if any. *)
Fixpoint preview_lines (getpixel : Z -> Z -> Z) (width : Z) (ys : list Z)
    (printed : list string) : list string * option exn :=
  match ys with
  | [] => (printed, None)
  | y :: rest =>
      match preview_line getpixel y (range width) "" with
      | Returns line => preview_lines getpixel width rest (printed ++ [line])
      | Raises e => (printed, Some e)
      | Blocks => (printed, None)
      end
  end.

(** Lines 79 to 96 of [display_image_in_terminal], once the image is
    resized to 80 by 25 and converted to greyscale: what is printed. *)
Definition ascii_preview (getpixel : Z -> Z -> Z) : list string * option exn :=
  let width := 80 in
  let height := 25 in
  preview_lines getpixel width (range height)
    [String "010" "Image Preview (ASCII):"].

(** ** The list of book pages of the web scraper *)

(** A tag of a parsed page: its attributes. *)
Record tag : Type := {
  attrs : gmap string string
}.

(** A fetched page: the status code and what [soup.select(selector)] finds
    in its text. *)
Record page : Type := {
  page_status : Z;
  select : string -> list tag
}.

(** [l[:n]]. *)
Definition slice_to {A} (l : list A) (n : Z) : list A :=
  if 0 <=? n then take (Z.to_nat n) l
  else take (Z.to_nat (Z.of_nat (List.length l) + n)) l.

(** The loop of [get_book_urls] over the links kept. *)
Fixpoint book_urls_of (base_url : string) (links : list tag) : list string :=
  match links with
  | [] => []
  | link :: rest =>
      match attrs link !! "href" with
      | Some href =>
          if String.eqb href "" then book_urls_of base_url rest
          else (if String.prefix "/" href then base_url ++ href else href)
               :: book_urls_of base_url rest
      | None => book_urls_of base_url rest
      end
  end.

(** [get_book_urls]: [requests.get] is called without a timeout;
    [raise_for_status] raises for the status codes 400 to 599, and that
    error, like any other, is caught and turned into the empty list. *)
Definition get_book_urls (fetch : string -> reply page) (num_books : Z)
  : M (list string) :=
  let base_url := "https://openlibrary.org" in
  let popular_url := base_url ++ "/trending/daily" in
  try_except
    (sent (HttpGet popular_url) ;;;
     response <- lift (await None RequestsTimeout (fetch popular_url)) ;;
     if (400 <=? page_status response) && (page_status response <? 600)
     then ret []
     else
       let book_links := select response "a.results" in
       ret (book_urls_of base_url (slice_to book_links num_books)))
    (fun e => ret []).

(** * Vocabulary of the properties *)

(** [needle] occurs in [haystack]. *)
Definition occurs_in (needle haystack : string) : Prop :=
  exists pre post, haystack = pre ++ needle ++ post.

(** The position of a datetime on the time line, in microseconds since the
    start of the proleptic Gregorian day of ordinal 0. *)
Definition instant (t : datetime) : Z :=
  (toordinal t * 86400 + hour t * 3600 + minute t * 60 + second t) * 1000000
  + microsecond t.

Definition day_us : Z := 86400 * 1000000.
Definition hour_us : Z := 3600 * 1000000.

(** A record [get_cert_info] builds from the certificate [c] for [d]. *)
Definition built_from (d : string) (c : peercert) (r : cert_info) : Prop :=
  forall w, cert_info_of d c w = (Returns r, w).

(** Every cached record was built from some certificate for its key. *)
Definition cache_built (w : world) : Prop :=
  forall d r, cert_cache w !! d = Some r -> exists c, built_from d c r.

Definition fresh_world : world := {| cert_cache := ∅; wire := [] |}.

(** Everything this process can do to its state between two retrievals. *)
Inductive call : Type :=
  | CallRetrieve (net : network) (d : string)
  | CallAnalyze (net : network) (d : string)
  | CallCorrelate (net : network) (d : string)
  | CallCheckCiphers (net : network) (d output : string)
  | CallExport (net : network) (utcnow : datetime) (d : string).

Definition after (c : call) (w : world) : world :=
  match c with
  | CallRetrieve net d => (get_cert_info net d w).2
  | CallAnalyze net d => (analyze_cipher_strength net d w).2
  | CallCorrelate net d => (check_cert_transparency net d w).2
  | CallCheckCiphers net d output => (on_check_ciphers net d output w).2
  | CallExport net utcnow d => (on_export_json net utcnow d w).2
  end.

Definition after_all (calls : list call) (w : world) : world :=
  foldl (fun w c => after c w) w calls.


(** ** Sample hosts and clock readings *)

Definition noon_2024_12_31 : datetime :=
  {| year := 2024; month := 12; day := 31; hour := 12; minute := 0; second := 0;
     microsecond := 0 |}.

Definition ca_name : list rdn :=
  [[("countryName", "US")]; [("organizationName", "Example Trust")];
   [("commonName", "Example Trust CA")]].

(** Same organisation as the issuer, another common name. *)
Definition site_name : list rdn :=
  [[("countryName", "US")]; [("organizationName", "Example Trust")];
   [("commonName", "www.example.com")]].

(** The issuer's attributes in another order. *)
Definition ca_name_reordered : list rdn :=
  [[("commonName", "Example Trust CA")]; [("countryName", "US")];
   [("organizationName", "Example Trust")]].

Definition site_cert : peercert :=
  {| cert_issuer := Some ca_name;
     cert_subject := Some site_name;
     notBefore := Some "Jan  1 00:00:00 2025 GMT";
     notAfter := Some "Jan  1 00:00:00 2026 GMT";
     serialNumber := Some "0A1B2C" |}.

Definition root_cert : peercert :=
  {| cert_issuer := Some ca_name;
     cert_subject := Some ca_name_reordered;
     notBefore := Some "Jan  1 00:00:00 2020 GMT";
     notAfter := Some "Jan  1 00:00:00 2040 GMT";
     serialNumber := None |}.

Definition site_session : session :=
  {| getpeercert := site_cert;
     cipher := Some ("TLS_AES_256_GCM_SHA384", "TLSv1.3", 256) |}.

Definition root_session : session :=
  {| getpeercert := root_cert;
     cipher := Some ("ECDHE-RSA-DES-CBC3-SHA", "TLSv1.2", 112) |}.

Definition two_entries : json :=
  JArr [JObj [("id", JInt 1)]; JObj [("id", JInt 2)]].

(** Everything answers in time. *)
Definition live : network :=
  {| tcp_connect := fun _ _ => Answer 1 tt;
     tls_handshake := fun _ => Answer 1 site_session;
     http_get := fun _ => Answer 2 {| status_code := 200; body_json := Some two_entries |} |}.

(** The same hosts later on: another certificate, a failing aggregator. *)
Definition live_later : network :=
  {| tcp_connect := fun _ _ => Answer 1 tt;
     tls_handshake := fun _ => Answer 1 root_session;
     http_get := fun _ => Answer 1 {| status_code := 500; body_json := None |} |}.

(** Nothing listens. *)
Definition down : network :=
  {| tcp_connect := fun _ _ => Failure 1 OSError;
     tls_handshake := fun _ => Failure 1 SSLError;
     http_get := fun _ => Failure 1 RequestsConnectionError |}.


Definition site_info : cert_info :=
  {| domain := "www.example.com";
     issuer := "Example Trust";
     valid_from := "Jan  1 00:00:00 2025 GMT";
     valid_to := "Jan  1 00:00:00 2026 GMT";
     serial_number := "0A1B2C";
     is_self_signed := false |}.

Definition site_world : world :=
  {| cert_cache := <["www.example.com" := site_info]> ∅;
     wire := [TcpConnect "www.example.com" 443; TlsHandshake "www.example.com"] |}.

Definition site_cipher : cipher_info :=
  {| cipher_name := "TLS_AES_256_GCM_SHA384"; protocol := "TLSv1.3"; bits := 256;
     is_weak := false |}.

Definition root_info : cert_info :=
  {| domain := "ca.example";
     issuer := "Example Trust";
     valid_from := "Jan  1 00:00:00 2020 GMT";
     valid_to := "Jan  1 00:00:00 2040 GMT";
     serial_number := "N/A";
     is_self_signed := true |}.

(** ** Vocabulary of the further properties *)

(** A peer certificate from which [get_cert_info] can build its record. *)
Definition complete_cert (c : peercert) : Prop :=
  exists iss sub nb na,
    cert_issuer c = Some iss /\ cert_subject c = Some sub /\
    notBefore c = Some nb /\ notAfter c = Some na /\
    Forall (fun x : rdn => x <> []) iss /\ Forall (fun x : rdn => x <> []) sub.

(** The states the program goes through: it starts with an empty cache and
    every turn of the loop of [main] leads to the next state. *)
Inductive reachable : world -> Prop :=
  | reachable_start : reachable fresh_world
  | reachable_turn w net utcnow ev win :
      reachable w -> reachable (main_step net utcnow ev win w).2.

(** A value that passes [if ct_logs:] and on which [len] raises: [True], a
    non-zero integer, or a float other than zero. *)
Definition truthy_without_len (v : json) : Prop :=
  v = JBool true \/ (exists n, v = JInt n /\ n <> 0) \/
  (exists x, v = JFloat x /\ forall sign, x <> S754_zero sign).

(** Only whitespace, if anything. *)
Definition blank (s : string) : Prop :=
  Forall (fun c => is_py_space c = true) (list_ascii_of_string s).

(** [a] comes before [b] on the calendar and the clock. *)
Definition calendar_lt (a b : datetime) : Prop :=
  year a < year b \/ year a = year b /\
  (month a < month b \/ month a = month b /\
  (day a < day b \/ day a = day b /\
  (hour a < hour b \/ hour a = hour b /\
  (minute a < minute b \/ minute a = minute b /\
  (second a < second b \/ second a = second b /\
   microsecond a < microsecond b))))).

(** A distinguished name whose RDNs hold one attribute each, under names
    that are all different. *)
Definition simple_name (name : list rdn) : Prop :=
  Forall (fun x : rdn => List.length x = 1%nat) name /\ NoDup (concat name).*1.

(** [s] ends with [suffix]. *)
Definition ends_with (suffix s : string) : Prop :=
  exists pre, s = pre ++ suffix.

(** The last two characters of a text. *)
Fixpoint last_two (s : string) : string :=
  match s with
  | EmptyString => EmptyString
  | String a r =>
      match r with
      | EmptyString => s
      | String b r2 =>
          match r2 with
          | EmptyString => s
          | _ => last_two r
          end
      end
  end.

Definition weak_line : string :=
  "❌ WEAK CIPHER DETECTED - Consider upgrading!" ++ String "010" "".

Definition secure_line : string :=
  "✅ Cipher strength appears secure" ++ String "010" "".

(** The character of the palette a pixel is drawn with. *)
Definition shade (pixel : Z) : option ascii :=
  String.get (Z.to_nat (pixel * 10 / 256)) ascii_chars.

Definition year_length (y : Z) : Z := if is_leap y then 366 else 365.

(** Issuer and subject carry the same attributes: every (name, value)
    pair found in an RDN of the one is found in an RDN of the other. *)
Definition same_attribute_set (a b : list rdn) : Prop :=
  forall kv, kv ∈ concat a <-> kv ∈ concat b.

(** A certificate issued by another party: the first RDN of issuer and
    subject holds two attributes, and the second attribute differs. *)
Definition issuing_name : list rdn :=
  [[("localityName", "Here"); ("organizationalUnitName", "Issuing")];
   [("commonName", "same")]].

Definition issued_name : list rdn :=
  [[("localityName", "Here"); ("organizationalUnitName", "Subject")];
   [("commonName", "same")]].

Definition issued_cert : peercert :=
  {| cert_issuer := Some issuing_name;
     cert_subject := Some issued_name;
     notBefore := Some "Jan  1 00:00:00 2025 GMT";
     notAfter := Some "Jan  1 00:00:00 2026 GMT";
     serialNumber := Some "01" |}.

Definition issued_host : network :=
  {| tcp_connect := fun _ _ => Answer 1 tt;
     tls_handshake := fun _ => Answer 1 {| getpeercert := issued_cert; cipher := None |};
     http_get := fun _ => Silent |}.

(** * Properties *)

(** ** Substrings *)

Lemma append_cons (c : ascii) (a b : string) : String c a ++ b = String c (a ++ b).
Proof. reflexivity. Qed.

Lemma prefix_app (a b : string) : String.prefix a b = true <-> exists post, b = a ++ post.
Proof.
  revert b. induction a as [|c a IH]; intros b.
  - split; [intros _; exists b; reflexivity | intros _; destruct b; reflexivity].
  - destruct b as [|c' b]; simpl.
    + split; [discriminate | intros [post H]; discriminate].
    + destruct (ascii_dec c c') as [->|Hne].
      * rewrite IH. split; intros [post H]; exists post; rewrite append_cons in *; congruence.
      * split; [discriminate | intros [post H]; rewrite append_cons in H; congruence].
Qed.

Lemma str_in_occurs (needle haystack : string) :
  str_in needle haystack = true <-> occurs_in needle haystack.
Proof.
  induction haystack as [|c h IH].
  - cbn [str_in]. rewrite orb_false_r, prefix_app. split.
    + intros [post H]. exists "", post. exact H.
    + intros [pre [post H]]. destruct pre; [exists post; exact H | discriminate].
  - cbn [str_in]. rewrite orb_true_iff, prefix_app, IH. split.
    + intros [[post H] | [pre [post H]]].
      * exists "", post. exact H.
      * exists (String c pre), post. rewrite append_cons. congruence.
    + intros [pre [post H]]. destruct pre as [|c' pre].
      * left. exists post. exact H.
      * right. exists pre, post. rewrite append_cons in H. congruence.
Qed.

(** ** The state and error monad *)

Ltac unfold_m :=
  unfold bind, ret, raise, lift, try_except, sent, cache_get, cache_set, subscript in *.

Lemma open_tls_cache net host w :
  cert_cache (open_tls net host w).2 = cert_cache w.
Proof.
  unfold open_tls. unfold_m. simpl.
  destruct (connect (tcp_connect net host 443)); reflexivity.
Qed.

(** ** Cipher Strength Analyzer *)

Lemma analyze_returns net d w c w' :
  analyze_cipher_strength net d w = (Returns (Some c), w') ->
  exists ssock proto,
    open_tls net d w = (Returns ssock, w') /\
    cipher ssock = Some (cipher_name c, proto, bits c) /\
    is_weak c = (str_in "RC4" (cipher_name c) || str_in "DES" (cipher_name c) || (bits c <? 128)).
Proof.
  unfold analyze_cipher_strength. unfold_m.
  destruct (open_tls net d w) as [[ssock|e|] w1]; simpl; try discriminate.
  destruct (cipher ssock) as [[[c0 c1] c2]|] eqn:Hc; simpl; try discriminate.
  intros H. injection H as <- <-. exists ssock, c1. simpl. auto.
Qed.

(** C2: every assessment [analyze_cipher_strength] produces is weak exactly
    when the cipher name contains "RC4" or "DES" or the bit strength is below
    128.  In particular a name containing "RC4" is weak whatever the bits,
    256 bits without a banned marker is not weak, and 112 bits without a
    banned marker is weak. *)
Theorem is_weak_classification net d w c w' :
  analyze_cipher_strength net d w = (Returns (Some c), w') ->
  (is_weak c = true <->
     occurs_in "RC4" (cipher_name c) \/ occurs_in "DES" (cipher_name c) \/ bits c < 128) /\
  (occurs_in "RC4" (cipher_name c) -> is_weak c = true) /\
  (bits c = 256 -> ~ occurs_in "RC4" (cipher_name c) -> ~ occurs_in "DES" (cipher_name c) ->
     is_weak c = false) /\
  (bits c = 112 -> ~ occurs_in "RC4" (cipher_name c) -> ~ occurs_in "DES" (cipher_name c) ->
     is_weak c = true).
Proof.
  intros H. apply analyze_returns in H as (ssock & proto & _ & _ & Hw).
  assert (Hiff : is_weak c = true <->
     occurs_in "RC4" (cipher_name c) \/ occurs_in "DES" (cipher_name c) \/ bits c < 128).
  { rewrite Hw, !orb_true_iff, !str_in_occurs, Z.ltb_lt. tauto. }
  split; [exact Hiff|]. split; [|split].
  - intros Hrc4. apply Hiff. auto.
  - intros Hb Hn1 Hn2. destruct (is_weak c) eqn:E; [|reflexivity].
    destruct Hiff as [Hiff _]. destruct (Hiff eq_refl) as [?|[?|?]]; [tauto|tauto|lia].
  - intros Hb _ _. apply Hiff. right. right. lia.
Qed.

(** ** Expiry Calculator *)

Lemma datetime_sub_days (a b : datetime) :
  days (datetime_sub a b) = (instant a - instant b) / day_us.
Proof.
  unfold datetime_sub, mk_timedelta, instant, day_us. cbn [days].
  generalize (toordinal a) (toordinal b). intros oa ob.
  destruct a as [? ? ? ha ma sa ua], b as [? ? ? hb mb sb ub]. cbn.
  Z.div_mod_to_equations. lia.
Qed.

Lemma floor_bounds (x d : Z) : x / day_us = d <-> d * day_us <= x < (d + 1) * day_us.
Proof.
  unfold day_us. split.
  - intros <-. Z.div_mod_to_equations. lia.
  - intros H. Z.div_mod_to_equations. lia.
Qed.

(** C3: for a well-formed end date and any reading of the clock,
    [days_until_expiry] returns the floor of the duration from now to the end
    date in days.  An expiry 12 hours ahead gives 0, 12 hours in the past
    gives -1, 30 days and 1 hour ahead gives 30, and 30 days minus 1 hour
    ahead gives 29. *)
Theorem days_until_expiry_floor (utcnow : datetime) (s : string) (expiry : datetime) :
  strptime s = Returns expiry ->
  exists d,
    days_until_expiry utcnow s = Returns d /\
    d * day_us <= instant expiry - instant utcnow < (d + 1) * day_us /\
    (instant expiry - instant utcnow = 12 * hour_us -> d = 0) /\
    (instant expiry - instant utcnow = - (12 * hour_us) -> d = -1) /\
    (instant expiry - instant utcnow = 30 * day_us + hour_us -> d = 30) /\
    (instant expiry - instant utcnow = 30 * day_us - hour_us -> d = 29).
Proof.
  intros Hs. exists (days (datetime_sub expiry utcnow)).
  unfold days_until_expiry. rewrite Hs.
  pose proof (datetime_sub_days expiry utcnow) as Hd.
  pose proof (proj1 (floor_bounds _ _) (eq_sym Hd)) as Hb.
  split; [reflexivity|]. split; [exact Hb|].
  unfold day_us, hour_us in *. repeat split; intros E; rewrite E in Hb; lia.
Qed.

Lemma days_until_expiry_floor_witness :
  exists d,
    days_until_expiry noon_2024_12_31 "Jan  1 00:00:00 2025 GMT" = Returns d /\
    d = 0.
Proof.
  destruct (days_until_expiry_floor noon_2024_12_31 "Jan  1 00:00:00 2025 GMT"
              {| year := 2025; month := 1; day := 1; hour := 0; minute := 0;
                 second := 0; microsecond := 0 |} eq_refl)
    as (d & Hd & _ & H12 & _).
  exists d. split; [exact Hd|]. apply H12. reflexivity.
Defined.

Example expiry_in_12_hours :
  days_until_expiry noon_2024_12_31 "Jan  1 00:00:00 2025 GMT" = Returns 0.
Proof. reflexivity. Qed.

Example expired_12_hours_ago :
  days_until_expiry noon_2024_12_31 "Dec 31 00:00:00 2024 GMT" = Returns (-1).
Proof. reflexivity. Qed.

Example expiry_in_30_days_1_hour :
  days_until_expiry noon_2024_12_31 "Jan 30 13:00:00 2025 GMT" = Returns 30.
Proof. reflexivity. Qed.

Example expiry_in_30_days_less_1_hour :
  days_until_expiry noon_2024_12_31 "Jan 30 11:00:00 2025 GMT" = Returns 29.
Proof. reflexivity. Qed.

Example expiry_leap_day :
  days_until_expiry
    {| year := 2024; month := 2; day := 28; hour := 23; minute := 59; second := 59;
       microsecond := 999999 |}
    "Mar  1 00:00:00 2024 GMT" = Returns 1.
Proof. reflexivity. Qed.

Example status_line_warning :
  status_line 12 = "Status: ⚠️ 12 days remaining".
Proof. reflexivity. Qed.

Example malformed_date :
  days_until_expiry noon_2024_12_31 "2025-01-01T00:00:00Z" = Raises ValueError.
Proof. reflexivity. Qed.

(** ** Certificate Retriever *)

Lemma dict_snoc (pairs : list (string * string)) (k v : string) :
  dict (pairs ++ [(k, v)]) = <[k := v]> (dict pairs).
Proof. unfold dict. rewrite foldl_app. reflexivity. Qed.

Lemma dict_list_to_map (pairs : list (string * string)) :
  dict pairs = list_to_map (reverse pairs).
Proof.
  induction pairs as [|[k v] pairs IH] using rev_ind.
  - reflexivity.
  - rewrite dict_snoc, reverse_app, IH. reflexivity.
Qed.

(** With pairwise distinct attribute names the dictionary holds exactly the
    pairs it was built from. *)
Lemma dict_lookup_NoDup (pairs : list (string * string)) (k v : string) :
  NoDup pairs.*1 -> dict pairs !! k = Some v <-> (k, v) ∈ pairs.
Proof.
  intros Hnd. rewrite dict_list_to_map, <- elem_of_list_to_map.
  - apply elem_of_reverse.
  - rewrite fmap_reverse, reverse_Permutation. exact Hnd.
Qed.

(** The order of the RDNs does not matter when the names are distinct. *)
Lemma dict_Permutation (p q : list (string * string)) :
  NoDup p.*1 -> p ≡ₚ q -> dict p = dict q.
Proof.
  intros Hnd Hpq. rewrite !dict_list_to_map.
  apply list_to_map_proper.
  - rewrite fmap_reverse, reverse_Permutation. exact Hnd.
  - rewrite !reverse_Permutation. exact Hpq.
Qed.

Lemma gmap_eq_lookup (m1 m2 : gmap string string) :
  m1 = m2 <-> forall a, m1 !! a = m2 !! a.
Proof. split; [intros ->; reflexivity | apply map_eq]. Qed.

Lemma cert_info_of_returns d c r w w' :
  cert_info_of d c w = (Returns r, w') ->
  exists iss sub ipairs spairs nb na,
    cert_issuer c = Some iss /\ cert_subject c = Some sub /\
    first_pairs iss = Returns ipairs /\ first_pairs sub = Returns spairs /\
    notBefore c = Some nb /\ notAfter c = Some na /\
    w' = w /\
    r = {| domain := d;
           issuer := get_default (dict ipairs !! "organizationName") "Unknown";
           valid_from := nb;
           valid_to := na;
           serial_number := get_default (serialNumber c) "N/A";
           is_self_signed := bool_decide (dict ipairs = dict spairs) |}.
Proof.
  unfold cert_info_of. unfold_m.
  destruct (cert_issuer c) as [iss|]; simpl; [|discriminate].
  destruct (first_pairs iss) as [ipairs| |] eqn:Hip; simpl; try discriminate.
  destruct (cert_subject c) as [sub|]; simpl; [|discriminate].
  destruct (first_pairs sub) as [spairs| |] eqn:Hsp; simpl; try discriminate.
  destruct (notBefore c) as [nb|]; simpl; [|discriminate].
  destruct (notAfter c) as [na|]; simpl; [|discriminate].
  intros H. injection H as <- <-.
  exists iss, sub, ipairs, spairs, nb, na. repeat split; assumption || reflexivity.
Qed.

Lemma cert_info_of_world d c w : (cert_info_of d c w).2 = w.
Proof.
  unfold cert_info_of. unfold_m.
  destruct (cert_issuer c) as [iss|]; simpl; [|reflexivity].
  destruct (first_pairs iss) as [ipairs| |]; simpl; try reflexivity.
  destruct (cert_subject c) as [sub|]; simpl; [|reflexivity].
  destruct (first_pairs sub) as [spairs| |]; simpl; try reflexivity.
  destruct (notBefore c) as [nb|]; simpl; [|reflexivity].
  destruct (notAfter c) as [na|]; simpl; reflexivity.
Qed.

Lemma cert_info_of_outcome d c w1 w2 :
  (cert_info_of d c w1).1 = (cert_info_of d c w2).1.
Proof.
  unfold cert_info_of. unfold_m.
  destruct (cert_issuer c) as [iss|]; simpl; [|reflexivity].
  destruct (first_pairs iss) as [ipairs| |]; simpl; try reflexivity.
  destruct (cert_subject c) as [sub|]; simpl; [|reflexivity].
  destruct (first_pairs sub) as [spairs| |]; simpl; try reflexivity.
  destruct (notBefore c) as [nb|]; simpl; [|reflexivity].
  destruct (notAfter c) as [na|]; simpl; reflexivity.
Qed.

Lemma cert_info_of_built d c r w w' :
  cert_info_of d c w = (Returns r, w') -> built_from d c r.
Proof.
  intros H w2.
  pose proof (cert_info_of_outcome d c w w2) as Ho.
  pose proof (cert_info_of_world d c w2) as Hw.
  rewrite H in Ho. simpl in Ho.
  destruct (cert_info_of d c w2) as [o w3]. simpl in *. congruence.
Qed.

(** A cache hit returns the stored record and touches nothing. *)
Lemma get_cert_info_hit net d w r :
  cert_cache w !! d = Some r -> get_cert_info net d w = (Returns r, w).
Proof. intros H. unfold get_cert_info. unfold_m. rewrite H. reflexivity. Qed.

(** A cache miss goes to the server. *)
Lemma get_cert_info_miss net d w :
  cert_cache w !! d = None ->
  get_cert_info net d w =
    match open_tls net d w with
    | (Returns ssock, w1) =>
        match cert_info_of d (getpeercert ssock) w1 with
        | (Returns info, _) =>
            (Returns info,
             {| cert_cache := <[d := info]> (cert_cache w); wire := wire w1 |})
        | (Raises e, _) => (Raises e, w1)
        | (Blocks, _) => (Blocks, w1)
        end
    | (Raises e, w1) => (Raises e, w1)
    | (Blocks, w1) => (Blocks, w1)
    end.
Proof.
  intros H. unfold get_cert_info. unfold_m. rewrite H.
  pose proof (open_tls_cache net d w) as Hc.
  destruct (open_tls net d w) as [[ssock|e|] w1]; simpl in *; try reflexivity.
  pose proof (cert_info_of_world d (getpeercert ssock) w1) as Hw.
  destruct (cert_info_of d (getpeercert ssock) w1) as [[info|e|] w2];
    simpl in *; subst w2; try reflexivity.
  rewrite Hc. reflexivity.
Qed.

Lemma fresh_world_built : cache_built fresh_world.
Proof. intros d r H. simpl in H. rewrite lookup_empty in H. discriminate. Qed.

Lemma get_cert_info_returns net d w r w' :
  get_cert_info net d w = (Returns r, w') ->
  (cert_cache w !! d = Some r /\ w' = w) \/
  (cert_cache w !! d = None /\
   exists ssock w1,
     open_tls net d w = (Returns ssock, w1) /\
     built_from d (getpeercert ssock) r /\
     w' = {| cert_cache := <[d := r]> (cert_cache w); wire := wire w1 |}).
Proof.
  destruct (cert_cache w !! d) as [r0|] eqn:Hc.
  - rewrite (get_cert_info_hit net d w r0 Hc). intros H. injection H as <- <-. auto.
  - rewrite (get_cert_info_miss net d w Hc). intros H. right. split; [reflexivity|].
    destruct (open_tls net d w) as [[ssock|e|] w1]; try discriminate.
    destruct (cert_info_of d (getpeercert ssock) w1) as [[info|e|] w2] eqn:Hi;
      try discriminate.
    injection H as <- <-. exists ssock, w1.
    split; [reflexivity|]. split; [|reflexivity].
    eapply cert_info_of_built. exact Hi.
Qed.

Lemma get_cert_info_built net d w o w' :
  cache_built w -> get_cert_info net d w = (o, w') -> cache_built w'.
Proof.
  intros Hb H. destruct (cert_cache w !! d) as [r0|] eqn:Hc.
  - rewrite (get_cert_info_hit net d w r0 Hc) in H. injection H as <- <-. exact Hb.
  - rewrite (get_cert_info_miss net d w Hc) in H.
    pose proof (open_tls_cache net d w) as Hcache.
    destruct (open_tls net d w) as [[ssock|e|] w1]; simpl in Hcache.
    + destruct (cert_info_of d (getpeercert ssock) w1) as [[info|e|] w2] eqn:Hi.
      * injection H as <- <-. intros d' r'. simpl.
        destruct (decide (d = d')) as [<-|Hne].
        -- rewrite lookup_insert_eq. intros E. injection E as <-.
           exists (getpeercert ssock). eapply cert_info_of_built. exact Hi.
        -- rewrite lookup_insert_ne by exact Hne. apply Hb.
      * injection H as <- <-. intros d' r'. rewrite Hcache. apply Hb.
      * injection H as <- <-. intros d' r'. rewrite Hcache. apply Hb.
    + injection H as <- <-. intros d' r'. rewrite Hcache. apply Hb.
    + injection H as <- <-. intros d' r'. rewrite Hcache. apply Hb.
Qed.

(** The flag in terms of what the code compares: the record
    [get_cert_info] returns was built from a certificate whose issuer and
    subject give two dictionaries, made of the first pair of each RDN, and
    [is_self_signed] is true exactly when the two dictionaries agree on
    every attribute name; with distinct names among those first pairs that
    is equality of the two sets of first pairs, whatever their order.  On a
    cache miss the certificate is the one the server has just presented. *)
Theorem is_self_signed_iff_same_attributes net d w r w' :
  cache_built w ->
  get_cert_info net d w = (Returns r, w') ->
  exists c iss sub ipairs spairs,
    built_from d c r /\
    (cert_cache w !! d = None ->
       exists ssock, (open_tls net d w).1 = Returns ssock /\ c = getpeercert ssock) /\
    cert_issuer c = Some iss /\ cert_subject c = Some sub /\
    first_pairs iss = Returns ipairs /\ first_pairs sub = Returns spairs /\
    (is_self_signed r = true <-> forall a, dict ipairs !! a = dict spairs !! a) /\
    (NoDup ipairs.*1 -> NoDup spairs.*1 ->
       (is_self_signed r = true <-> forall kv, kv ∈ ipairs <-> kv ∈ spairs)).
Proof.
  intros Hb H.
  assert (Hc : exists c, built_from d c r /\
            (cert_cache w !! d = None ->
             exists ssock, (open_tls net d w).1 = Returns ssock /\ c = getpeercert ssock)).
  { apply get_cert_info_returns in H as [[Hhit _] | [Hmiss (ssock & w1 & Ho & Hbf & _)]].
    - destruct (Hb d r Hhit) as [c Hbf]. exists c. split; [exact Hbf|].
      intros E. congruence.
    - exists (getpeercert ssock). split; [exact Hbf|].
      intros _. exists ssock. rewrite Ho. auto. }
  destruct Hc as (c & Hbf & Hmiss).
  destruct (cert_info_of_returns d c r fresh_world fresh_world (Hbf fresh_world))
    as (iss & sub & ipairs & spairs & nb & na & Hi & Hs & Hip & Hsp & _ & _ & _ & Hr).
  exists c, iss, sub, ipairs, spairs.
  assert (Hiff : is_self_signed r = true <-> forall a, dict ipairs !! a = dict spairs !! a).
  { rewrite Hr. cbn [is_self_signed]. rewrite bool_decide_eq_true. apply gmap_eq_lookup. }
  repeat (split; [assumption|]).
  intros Hn1 Hn2. rewrite Hiff. split.
  - intros E [k v]. rewrite <- !dict_lookup_NoDup by assumption. rewrite E. reflexivity.
  - intros E a. apply option_eq. intros v.
    rewrite !dict_lookup_NoDup by assumption. apply E.
Qed.

(** C1: the flag is not equality of the full attribute sets.  For a
    certificate whose issuer and subject differ in the second attribute of
    an RDN that holds two, [get_cert_info] returns a record marked
    self-signed although the two attribute sets are different: only the
    first pair of each RDN reaches the dictionaries it compares. *)
Theorem self_signed_flag_misses_later_attributes :
  cert_issuer issued_cert = Some issuing_name /\
  cert_subject issued_cert = Some issued_name /\
  ~ same_attribute_set issuing_name issued_name /\
  exists r w',
    get_cert_info issued_host "issued.example" fresh_world = (Returns r, w') /\
    is_self_signed r = true.
Proof.
  split; [reflexivity|]. split; [reflexivity|]. split.
  - intros H.
    assert (Hin : ("organizationalUnitName", "Issuing") ∈ concat issuing_name).
    { apply (bool_decide_unpack _). vm_compute. reflexivity. }
    assert (Hout : ("organizationalUnitName", "Issuing") ∉ concat issued_name).
    { apply (bool_decide_unpack _). vm_compute. reflexivity. }
    apply Hout, H, Hin.
  - eexists. eexists. split; [vm_compute; reflexivity | reflexivity].
Qed.

(** ** Scan Cache *)

Lemma analyze_cache net d w :
  cert_cache (analyze_cipher_strength net d w).2 = cert_cache w.
Proof.
  unfold analyze_cipher_strength. unfold_m.
  pose proof (open_tls_cache net d w) as Hc.
  destruct (open_tls net d w) as [[ssock|e|] w1]; simpl in *; try exact Hc.
  destruct (cipher ssock) as [[[c0 c1] c2]|]; simpl; exact Hc.
Qed.

Lemma correlate_cache net d w :
  cert_cache (check_cert_transparency net d w).2 = cert_cache w.
Proof.
  unfold check_cert_transparency, requests_get, response_json. unfold_m. simpl.
  destruct (await (Some 10%N) RequestsTimeout (http_get net (CRTSH_URL d)))
    as [resp|e|]; simpl; try reflexivity.
  destruct (status_code resp =? 200); simpl; [|reflexivity].
  destruct (body_json resp); reflexivity.
Qed.

(** [get_cert_info] never replaces or removes an entry of the cache. *)
Lemma get_cert_info_keeps net d w d0 r0 :
  cert_cache w !! d0 = Some r0 ->
  cert_cache (get_cert_info net d w).2 !! d0 = Some r0.
Proof.
  intros H0. destruct (cert_cache w !! d) as [r|] eqn:Hc.
  - rewrite (get_cert_info_hit net d w r Hc). exact H0.
  - rewrite (get_cert_info_miss net d w Hc).
    pose proof (open_tls_cache net d w) as Hcache.
    destruct (open_tls net d w) as [[ssock|e|] w1]; simpl in *;
      try (rewrite Hcache; exact H0).
    destruct (cert_info_of d (getpeercert ssock) w1) as [[info|e|] w2]; simpl;
      try (rewrite Hcache; exact H0).
    rewrite lookup_insert_ne; [exact H0|]. intros ->. congruence.
Qed.

Lemma on_export_json_keeps net now d w d0 r0 :
  cert_cache w !! d0 = Some r0 ->
  cert_cache (on_export_json net now d w).2 !! d0 = Some r0.
Proof.
  intros H0. unfold on_export_json, bind.
  pose proof (get_cert_info_keeps net d w d0 r0 H0) as H1.
  destruct (get_cert_info net d w) as [[info|e|] w1]; simpl in *; try exact H1.
  pose proof (analyze_cache net d w1) as H2.
  destruct (analyze_cipher_strength net d w1) as [[c|e|] w2]; simpl in *;
    try (rewrite H2; exact H1).
  pose proof (correlate_cache net d w2) as H3.
  destruct (check_cert_transparency net d w2) as [[logs|e|] w3]; simpl in *;
    try (rewrite H3, H2; exact H1).
  unfold lift, ret. destruct (len logs); simpl; rewrite H3, H2; exact H1.
Qed.

Lemma on_check_ciphers_cache net d out w :
  cert_cache (on_check_ciphers net d out w).2 = cert_cache w.
Proof.
  unfold on_check_ciphers, bind, ret.
  pose proof (analyze_cache net d w) as H.
  destruct (analyze_cipher_strength net d w) as [[[c|]|e|] w1]; simpl in *; exact H.
Qed.

Lemma after_keeps c w d0 r0 :
  cert_cache w !! d0 = Some r0 -> cert_cache (after c w) !! d0 = Some r0.
Proof.
  intros H0. destruct c; simpl.
  - apply get_cert_info_keeps, H0.
  - rewrite analyze_cache. exact H0.
  - rewrite correlate_cache. exact H0.
  - rewrite on_check_ciphers_cache. exact H0.
  - apply on_export_json_keeps, H0.
Qed.

Lemma after_all_keeps calls w d0 r0 :
  cert_cache w !! d0 = Some r0 -> cert_cache (after_all calls w) !! d0 = Some r0.
Proof.
  revert w. induction calls as [|c calls IH]; intros w H0; simpl.
  - exact H0.
  - apply IH, after_keeps, H0.
Qed.

Lemma cache_built_same w w' :
  cert_cache w' = cert_cache w -> cache_built w -> cache_built w'.
Proof. intros E Hb d r. rewrite E. apply Hb. Qed.

Lemma on_export_json_built net now d w :
  cache_built w -> cache_built (on_export_json net now d w).2.
Proof.
  intros Hb. unfold on_export_json, bind.
  destruct (get_cert_info net d w) as [o w1] eqn:H1.
  pose proof (get_cert_info_built net d w o w1 Hb H1) as Hb1.
  destruct o as [info|e|]; simpl; try exact Hb1.
  pose proof (analyze_cache net d w1) as H2.
  destruct (analyze_cipher_strength net d w1) as [[c|e|] w2]; simpl in *;
    try (apply (cache_built_same w1); assumption).
  pose proof (correlate_cache net d w2) as H3.
  destruct (check_cert_transparency net d w2) as [[logs|e|] w3]; simpl in *;
    try (apply (cache_built_same w1); [congruence | assumption]).
  unfold lift, ret.
  destruct (len logs); simpl; apply (cache_built_same w1); congruence || assumption.
Qed.

(** The invariant holds in every state the process can reach. *)
Lemma after_all_built calls w : cache_built w -> cache_built (after_all calls w).
Proof.
  revert w. induction calls as [|c calls IH]; intros w Hb; simpl; [exact Hb|].
  apply IH. destruct c; simpl.
  - destruct (get_cert_info net d w) as [o w1] eqn:H.
    exact (get_cert_info_built net d w o w1 Hb H).
  - apply (cache_built_same w); [apply analyze_cache | exact Hb].
  - apply (cache_built_same w); [apply correlate_cache | exact Hb].
  - apply (cache_built_same w); [apply on_check_ciphers_cache | exact Hb].
  - apply on_export_json_built, Hb.
Qed.

(** C4: once [get_cert_info] has returned a record for a domain, the record
    is in the cache, no entry that was there before has been replaced, and
    every later call for that domain, whatever the process did in between
    and whatever certificate the server presents by then, returns that same
    record without touching the cache or the network. *)
Theorem retrieve_returns_first_result net1 d w r w1 :
  get_cert_info net1 d w = (Returns r, w1) ->
  cert_cache w1 !! d = Some r /\
  (forall d0 r0, cert_cache w !! d0 = Some r0 -> cert_cache w1 !! d0 = Some r0) /\
  (forall net2, get_cert_info net2 d w1 = (Returns r, w1)) /\
  (forall calls net2,
     get_cert_info net2 d (after_all calls w1) = (Returns r, after_all calls w1)).
Proof.
  intros H.
  assert (Hin : cert_cache w1 !! d = Some r).
  { apply get_cert_info_returns in H as [[Hhit ->] | [_ (ssock & w0 & _ & _ & ->)]].
    - exact Hhit.
    - simpl. apply lookup_insert_eq. }
  split; [exact Hin|]. split; [|split].
  - intros d0 r0 H0. pose proof (get_cert_info_keeps net1 d w d0 r0 H0) as Hk.
    rewrite H in Hk. exact Hk.
  - intros net2. apply get_cert_info_hit, Hin.
  - intros calls net2. apply get_cert_info_hit, after_all_keeps, Hin.
Qed.

(** C10: when [get_cert_info] does not return a record, whether the
    connection, the handshake or the reading of the certificate fields went
    wrong, the cache is what it was and has no entry for the domain; the next
    call for the domain opens a connection again and returns whatever the
    server presents then. *)
Theorem failed_retrieve_leaves_cache net d w o w' :
  get_cert_info net d w = (o, w') ->
  (forall r, o <> Returns r) ->
  cert_cache w' = cert_cache w /\
  cert_cache w' !! d = None /\
  forall net2,
    (exists ops,
       wire (get_cert_info net2 d w').2 = (wire w' ++ TcpConnect d 443 :: ops)%list) /\
    (forall t1 t2 ssock r2,
       tcp_connect net2 d 443 = Answer t1 tt ->
       tls_handshake net2 d = Answer t2 ssock ->
       built_from d (getpeercert ssock) r2 ->
       (get_cert_info net2 d w').1 = Returns r2).
Proof.
  intros H Hfail.
  assert (Hmiss : cert_cache w !! d = None).
  { destruct (cert_cache w !! d) as [r|] eqn:Hc; [|reflexivity].
    rewrite (get_cert_info_hit net d w r Hc) in H. injection H as <- <-.
    exfalso. apply (Hfail r). reflexivity. }
  assert (Hsame : cert_cache w' = cert_cache w).
  { rewrite (get_cert_info_miss net d w Hmiss) in H.
    pose proof (open_tls_cache net d w) as Hcache.
    destruct (open_tls net d w) as [[ssock|e|] w1]; simpl in Hcache.
    - destruct (cert_info_of d (getpeercert ssock) w1) as [[info|e|] w2].
      + injection H as <- <-. exfalso. apply (Hfail info). reflexivity.
      + injection H as <- <-. exact Hcache.
      + injection H as <- <-. exact Hcache.
    - injection H as <- <-. exact Hcache.
    - injection H as <- <-. exact Hcache. }
  assert (Hmiss' : cert_cache w' !! d = None) by (rewrite Hsame; exact Hmiss).
  split; [exact Hsame|]. split; [exact Hmiss'|].
  intros net2. rewrite (get_cert_info_miss net2 d w' Hmiss'). split.
  - unfold open_tls. unfold_m. simpl.
    destruct (connect (tcp_connect net2 d 443)) as [[]|e|]; simpl.
    + destruct (await None TimeoutError (tls_handshake net2 d)) as [ssock|e|]; simpl.
      * destruct (cert_info_of d (getpeercert ssock) _) as [[info|e|] w2]; simpl;
          rewrite <- app_assoc; eexists; reflexivity.
      * rewrite <- app_assoc; eexists; reflexivity.
      * rewrite <- app_assoc; eexists; reflexivity.
    + eexists; reflexivity.
    + eexists; reflexivity.
  - intros t1 t2 ssock r2 Ht Hh Hb.
    unfold open_tls. unfold_m. simpl. rewrite Ht, Hh. simpl.
    rewrite (Hb _). reflexivity.
Qed.

(** ** Transparency Log Correlator *)

Lemma correlate_cases net d w :
  check_cert_transparency net d w =
    (Returns
       match http_get net (CRTSH_URL d) with
       | Answer t resp =>
           if (10 <? t)%N then JArr []
           else if status_code resp =? 200
                then match body_json resp with Some j => j | None => JArr [] end
                else JArr []
       | Failure _ _ | Silent => JArr []
       end,
     {| cert_cache := cert_cache w; wire := wire w ++ [HttpGet (CRTSH_URL d)] |}).
Proof.
  unfold check_cert_transparency, requests_get, response_json, await. unfold_m. simpl.
  destruct (http_get net (CRTSH_URL d)) as [t resp|t e|]; simpl.
  - destruct (10 <? t)%N; simpl; [reflexivity|].
    destruct (status_code resp =? 200); simpl; [|reflexivity].
    destruct (body_json resp); reflexivity.
  - destruct (10 <? t)%N; reflexivity.
  - reflexivity.
Qed.

(** C7: [check_cert_transparency] always returns.  On an HTTP 200 answer
    with a JSON body it returns the parsed body; on any other status, on a
    network failure, on a body that is not JSON, and when the request runs
    out of time, it returns the empty list. *)
Theorem correlate_never_raises net d w :
  exists v w',
    check_cert_transparency net d w = (Returns v, w') /\
    (forall t resp j,
       http_get net (CRTSH_URL d) = Answer t resp -> (t <= 10)%N ->
       status_code resp = 200 -> body_json resp = Some j -> v = j) /\
    (forall t resp,
       http_get net (CRTSH_URL d) = Answer t resp -> status_code resp <> 200 ->
       v = JArr []) /\
    (forall t resp,
       http_get net (CRTSH_URL d) = Answer t resp -> body_json resp = None ->
       v = JArr []) /\
    (forall t e, http_get net (CRTSH_URL d) = Failure t e -> v = JArr []) /\
    (forall t resp,
       http_get net (CRTSH_URL d) = Answer t resp -> (10 < t)%N -> v = JArr []) /\
    (http_get net (CRTSH_URL d) = Silent -> v = JArr []).
Proof.
  rewrite correlate_cases. eexists. eexists. split; [reflexivity|].
  destruct (http_get net (CRTSH_URL d)) as [t resp|t e|].
  - repeat split.
    + intros t0 resp0 j H Ht Hs Hb. injection H as <- <-.
      apply N.ltb_ge in Ht. rewrite Ht. apply Z.eqb_eq in Hs. rewrite Hs, Hb. reflexivity.
    + intros t0 resp0 H Hs. injection H as <- <-.
      apply Z.eqb_neq in Hs. rewrite Hs. destruct (10 <? t)%N; reflexivity.
    + intros t0 resp0 H Hb. injection H as <- <-. rewrite Hb.
      destruct (10 <? t)%N, (status_code resp =? 200); reflexivity.
    + intros t0 e H. discriminate.
    + intros t0 resp0 H Ht. injection H as <- <-.
      apply N.ltb_lt in Ht. rewrite Ht. reflexivity.
    + intros H. discriminate.
  - repeat split; intros; try discriminate; reflexivity.
  - repeat split; intros; try discriminate; reflexivity.
Qed.

(** ** Cipher Strength Analyzer: failures *)

Lemma analyze_cases net d w :
  analyze_cipher_strength net d w =
    match open_tls net d w with
    | (Returns ssock, w1) =>
        match cipher ssock with
        | Some (c0, c1, c2) =>
            (Returns (Some {| cipher_name := c0; protocol := c1; bits := c2;
                              is_weak := str_in "RC4" c0 || str_in "DES" c0 || (c2 <? 128) |}),
             w1)
        | None => (Returns None, w1)
        end
    | (Raises e, w1) => (Returns None, w1)
    | (Blocks, w1) => (Blocks, w1)
    end.
Proof.
  unfold analyze_cipher_strength. unfold_m.
  destruct (open_tls net d w) as [[ssock|e|] w1]; simpl; try reflexivity.
  destruct (cipher ssock) as [[[c0 c1] c2]|]; reflexivity.
Qed.

Lemma open_tls_cases net d w :
  (open_tls net d w).1 =
    match connect (tcp_connect net d 443) with
    | Returns _ => await None TimeoutError (tls_handshake net d)
    | Raises e => Raises e
    | Blocks => Blocks
    end.
Proof.
  unfold open_tls. unfold_m. simpl.
  destruct (connect (tcp_connect net d 443)); reflexivity.
Qed.

Lemma on_check_ciphers_null net d out w w1 :
  analyze_cipher_strength net d w = (Returns None, w1) ->
  on_check_ciphers net d out w = (Returns out, w1).
Proof. intros H. unfold on_check_ciphers, bind, ret. rewrite H. reflexivity. Qed.

(** What the Export JSON branch hands to [json.dump] once its three calls
    have returned and the transparency result is a list. *)
Lemma on_export_json_report net now d w r w1 c w2 l w3 :
  get_cert_info net d w = (Returns r, w1) ->
  analyze_cipher_strength net d w1 = (Returns c, w2) ->
  check_cert_transparency net d w2 = (Returns (JArr l), w3) ->
  on_export_json net now d w =
    (Returns ("ssl_report_" ++ replace "." "_" d ++ ".json",
              JObj [("domain", JStr d);
                    ("certificate", cert_info_json r);
                    ("cipher", cipher_info_json c);
                    ("ct_log_entries", JInt (Z.of_nat (List.length l)));
                    ("scan_time", JStr (isoformat now))]),
     w3).
Proof.
  intros H1 H2 H3. unfold on_export_json, bind, lift, ret.
  rewrite H1, H2, H3. reflexivity.
Qed.

(** C8: [analyze_cipher_strength] never raises.  When the connection or the
    handshake fails, or the session has no cipher to inspect, it returns
    [None]; the Check Ciphers branch then leaves the output as it is, and the
    Export JSON branch still produces its report, with a null cipher. *)
Theorem analyze_null_on_failure net d w :
  (forall e, (analyze_cipher_strength net d w).1 <> Raises e) /\
  (forall t e,
     tcp_connect net d 443 = Failure t e ->
     (analyze_cipher_strength net d w).1 = Returns None) /\
  (forall t t' e,
     tcp_connect net d 443 = Answer t tt -> tls_handshake net d = Failure t' e ->
     (analyze_cipher_strength net d w).1 = Returns None) /\
  (forall t t' ssock,
     tcp_connect net d 443 = Answer t tt -> tls_handshake net d = Answer t' ssock ->
     cipher ssock = None ->
     (analyze_cipher_strength net d w).1 = Returns None) /\
  (forall out w1,
     analyze_cipher_strength net d w = (Returns None, w1) ->
     on_check_ciphers net d out w = (Returns out, w1)) /\
  (forall now w0 r l w1 w2,
     get_cert_info net d w0 = (Returns r, w) ->
     analyze_cipher_strength net d w = (Returns None, w1) ->
     check_cert_transparency net d w1 = (Returns (JArr l), w2) ->
     exists filename fields,
       on_export_json net now d w0 = (Returns (filename, JObj fields), w2) /\
       fields !! 2%nat = Some ("cipher", JNull)).
Proof.
  pose proof (open_tls_cases net d w) as Ho.
  rewrite analyze_cases.
  destruct (open_tls net d w) as [[ssock|e|] w1] eqn:Hopen; simpl in Ho.
  - repeat split.
    + intros e. destruct (cipher ssock) as [[[c0 c1] c2]|]; discriminate.
    + intros t e Ht. rewrite Ht in Ho. discriminate.
    + intros t t' e Ht Hh. rewrite Ht, Hh in Ho. discriminate.
    + intros t t' s Ht Hh Hc. rewrite Ht, Hh in Ho. simpl in Ho.
      injection Ho as ->. rewrite Hc. reflexivity.
    + intros out w2 H. apply on_check_ciphers_null.
      rewrite analyze_cases, Hopen. exact H.
    + intros now w0 r l w2 w3 H1 H2 H3.
      eexists. eexists. split.
      * apply (on_export_json_report net now d w0 r w None w2 l w3); try assumption.
        rewrite analyze_cases, Hopen. exact H2.
      * reflexivity.
  - repeat split; try discriminate; try reflexivity.
    + intros out w2 H. apply on_check_ciphers_null.
      rewrite analyze_cases, Hopen. exact H.
    + intros now w0 r l w2 w3 H1 H2 H3.
      eexists. eexists. split.
      * apply (on_export_json_report net now d w0 r w None w2 l w3); try assumption.
        rewrite analyze_cases, Hopen. exact H2.
      * reflexivity.
  - repeat split; try discriminate.
    + intros t e Ht. rewrite Ht in Ho. discriminate.
    + intros t t' e Ht Hh. rewrite Ht, Hh in Ho. discriminate.
    + intros t t' s Ht Hh Hc. rewrite Ht, Hh in Ho. discriminate.
Qed.

(** ** Report Assembler *)

Lemma on_export_json_fails net now d w o w1 :
  get_cert_info net d w = (o, w1) ->
  (forall r, o <> Returns r) ->
  on_export_json net now d w =
    (match o with Returns _ => Blocks | Raises e => Raises e | Blocks => Blocks end, w1).
Proof.
  intros H Hfail. unfold on_export_json, bind. rewrite H.
  destruct o as [r|e|]; [exfalso; apply (Hfail r); reflexivity | reflexivity | reflexivity].
Qed.

(** C6: the Export JSON branch fails as a whole, with the retriever's own
    error and without a report, when [get_cert_info] fails.  When
    [get_cert_info] returns, the report is produced whatever the cipher
    analyzer returned ([None] included) and however many entries the
    transparency list has (none included): an object with exactly the fields
    domain, certificate, cipher, ct_log_entries and scan_time, where
    ct_log_entries is the length of the list and scan_time the ISO format of
    the UTC clock reading. *)
Theorem export_report_shape net now d w :
  (forall e w1,
     get_cert_info net d w = (Raises e, w1) ->
     on_export_json net now d w = (Raises e, w1)) /\
  (forall o w1,
     get_cert_info net d w = (o, w1) -> (forall r, o <> Returns r) ->
     forall rep, (on_export_json net now d w).1 <> Returns rep) /\
  (forall r w1 c w2 l w3,
     get_cert_info net d w = (Returns r, w1) ->
     analyze_cipher_strength net d w1 = (Returns c, w2) ->
     check_cert_transparency net d w2 = (Returns (JArr l), w3) ->
     exists n,
       on_export_json net now d w =
         (Returns ("ssl_report_" ++ replace "." "_" d ++ ".json",
                   JObj [("domain", JStr d);
                         ("certificate", cert_info_json r);
                         ("cipher", cipher_info_json c);
                         ("ct_log_entries", JInt n);
                         ("scan_time", JStr (isoformat now))]),
          w3) /\
       n = Z.of_nat (List.length l) /\ 0 <= n /\
       (c = None -> cipher_info_json c = JNull) /\
       (l = [] -> n = 0)).
Proof.
  split; [|split].
  - intros e w1 H.
    rewrite (on_export_json_fails net now d w (Raises e) w1 H); [reflexivity|].
    intros r. discriminate.
  - intros o w1 H Hfail rep.
    rewrite (on_export_json_fails net now d w o w1 H Hfail). simpl.
    destruct o; discriminate.
  - intros r w1 c w2 l w3 H1 H2 H3. exists (Z.of_nat (List.length l)).
    split; [apply (on_export_json_report net now d w r w1 c w2 l w3 H1 H2 H3)|].
    split; [reflexivity|]. split; [lia|]. split.
    + intros ->. reflexivity.
    + intros ->. reflexivity.
Qed.

(** ** Expiry status *)

(** C9: for every number of days left, more than 30 gives the healthy mark,
    1 to 30 inclusive the warning mark, and 0 or less the expired mark. *)
Theorem expiry_status_classification (days_left : Z) :
  (30 < days_left -> expiry_status days_left = "✅") /\
  (1 <= days_left <= 30 -> expiry_status days_left = "⚠️") /\
  (days_left <= 0 -> expiry_status days_left = "❌").
Proof.
  unfold expiry_status.
  destruct (30 <? days_left) eqn:H30; destruct (0 <? days_left) eqn:H0;
    try apply Z.ltb_lt in H30; try apply Z.ltb_ge in H30;
    try apply Z.ltb_lt in H0; try apply Z.ltb_ge in H0;
    repeat split; intros; solve [reflexivity | lia].
Qed.

Lemma expiry_status_classification_witness :
  expiry_status 31 = "✅" /\ expiry_status 30 = "⚠️" /\ expiry_status 1 = "⚠️" /\
  expiry_status 0 = "❌" /\ expiry_status (-1) = "❌".
Proof.
  split; [apply (expiry_status_classification 31); lia|].
  split; [apply (expiry_status_classification 30); lia|].
  split; [apply (expiry_status_classification 1); lia|].
  split; [apply (expiry_status_classification 0); lia|].
  apply (expiry_status_classification (-1)); lia.
Defined.

(** ** Deadlines *)






(** ** Worked examples *)

Example retrieve_site :
  get_cert_info live "www.example.com" fresh_world = (Returns site_info, site_world).
Proof. vm_compute. reflexivity. Qed.

(** Issuer and subject carry the same attributes in different orders. *)
Example retrieve_root_self_signed :
  (get_cert_info live_later "ca.example" fresh_world).1 = Returns root_info.
Proof. vm_compute. reflexivity. Qed.

(** Issuer and subject of [site_cert] have the same organisation name; the
    common names differ and the certificate is not self-signed. *)
Example same_organization_not_self_signed :
  dict [("countryName", "US"); ("organizationName", "Example Trust");
        ("commonName", "Example Trust CA")] !! "organizationName"
  = dict [("countryName", "US"); ("organizationName", "Example Trust");
          ("commonName", "www.example.com")] !! "organizationName" /\
  is_self_signed site_info = false.
Proof. split; vm_compute; reflexivity. Qed.

(** [dict] keeps the last value given for a name. *)
Example dict_later_pair_wins :
  dict [("domainComponent", "com"); ("domainComponent", "example")] !! "domainComponent"
  = Some "example".
Proof. vm_compute. reflexivity. Qed.

Lemma is_self_signed_iff_same_attributes_witness :
  cache_built fresh_world /\
  get_cert_info live "www.example.com" fresh_world = (Returns site_info, site_world) /\
  exists c iss sub ipairs spairs,
    built_from "www.example.com" c site_info /\
    (cert_cache fresh_world !! "www.example.com" = None ->
       exists ssock,
         (open_tls live "www.example.com" fresh_world).1 = Returns ssock /\
         c = getpeercert ssock) /\
    cert_issuer c = Some iss /\ cert_subject c = Some sub /\
    first_pairs iss = Returns ipairs /\ first_pairs sub = Returns spairs /\
    (is_self_signed site_info = true <-> forall a, dict ipairs !! a = dict spairs !! a) /\
    (NoDup ipairs.*1 -> NoDup spairs.*1 ->
       (is_self_signed site_info = true <-> forall kv, kv ∈ ipairs <-> kv ∈ spairs)).
Proof.
  split; [exact fresh_world_built|].
  split; [vm_compute; reflexivity|].
  apply (is_self_signed_iff_same_attributes live "www.example.com" fresh_world
           site_info site_world).
  - exact fresh_world_built.
  - vm_compute. reflexivity.
Defined.

Lemma is_weak_classification_witness :
  analyze_cipher_strength live "www.example.com" fresh_world
    = (Returns (Some site_cipher), {| cert_cache := ∅; wire := wire site_world |}) /\
  (is_weak site_cipher = true <->
     occurs_in "RC4" (cipher_name site_cipher) \/
     occurs_in "DES" (cipher_name site_cipher) \/ bits site_cipher < 128).
Proof.
  split; [vm_compute; reflexivity|].
  apply (is_weak_classification live "www.example.com" fresh_world site_cipher
           {| cert_cache := ∅; wire := wire site_world |}).
  vm_compute. reflexivity.
Defined.

Example weak_cipher_3des :
  (analyze_cipher_strength live_later "ca.example" fresh_world).1
  = Returns (Some {| cipher_name := "ECDHE-RSA-DES-CBC3-SHA"; protocol := "TLSv1.2";
                     bits := 112; is_weak := true |}).
Proof. vm_compute. reflexivity. Qed.

Lemma retrieve_returns_first_result_witness :
  get_cert_info live "www.example.com" fresh_world = (Returns site_info, site_world) /\
  (get_cert_info live_later "www.example.com" site_world).1 = Returns site_info /\
  (get_cert_info live_later "www.example.com"
     (after_all [CallRetrieve live_later "ca.example";
                 CallExport down noon_2024_12_31 "www.example.com"] site_world)).1
  = Returns site_info.
Proof.
  assert (H : get_cert_info live "www.example.com" fresh_world
              = (Returns site_info, site_world)) by (vm_compute; reflexivity).
  destruct (retrieve_returns_first_result live "www.example.com" fresh_world
              site_info site_world H) as (_ & _ & Hnext & Hlater).
  split; [exact H|]. split.
  - rewrite (Hnext live_later). reflexivity.
  - rewrite (Hlater _ live_later). reflexivity.
Defined.

Lemma failed_retrieve_leaves_cache_witness :
  get_cert_info down "www.example.com" fresh_world
    = (Raises OSError, {| cert_cache := ∅; wire := [TcpConnect "www.example.com" 443] |}) /\
  cert_cache {| cert_cache := ∅; wire := [TcpConnect "www.example.com" 443] |}
    = cert_cache fresh_world.
Proof.
  assert (H : get_cert_info down "www.example.com" fresh_world
              = (Raises OSError,
                 {| cert_cache := ∅; wire := [TcpConnect "www.example.com" 443] |}))
    by (vm_compute; reflexivity).
  split; [exact H|].
  apply (failed_retrieve_leaves_cache down "www.example.com" fresh_world _ _ H).
  intros r. discriminate.
Defined.

(** A certificate without [notAfter]: the extraction fails after a
    successful handshake and nothing is cached. *)
Example retrieve_incomplete_certificate :
  get_cert_info
    {| tcp_connect := fun _ _ => Answer 1 tt;
       tls_handshake := fun _ =>
         Answer 1 {| getpeercert :=
                       {| cert_issuer := Some ca_name; cert_subject := Some site_name;
                          notBefore := Some "Jan  1 00:00:00 2025 GMT";
                          notAfter := None; serialNumber := None |};
                     cipher := None |};
       http_get := fun _ => Silent |}
    "www.example.com" fresh_world
  = (Raises (KeyError "notAfter"), {| cert_cache := ∅; wire := wire site_world |}).
Proof. vm_compute. reflexivity. Qed.



Lemma correlate_never_raises_witness :
  exists v w',
    check_cert_transparency live_later "www.example.com" fresh_world = (Returns v, w') /\
    v = JArr [].
Proof.
  destruct (correlate_never_raises live_later "www.example.com" fresh_world)
    as (v & w' & Hv & _ & H500 & _).
  exists v, w'. split; [exact Hv|].
  apply (H500 1%N {| status_code := 500; body_json := None |}); [reflexivity | discriminate].
Defined.

Example correlate_http_200 :
  (check_cert_transparency live "www.example.com" fresh_world).1 = Returns two_entries.
Proof. vm_compute. reflexivity. Qed.

Lemma analyze_null_on_failure_witness :
  (analyze_cipher_strength down "www.example.com" fresh_world).1 = Returns None /\
  (on_check_ciphers down "www.example.com" "Scanning..." fresh_world).1
    = Returns "Scanning...".
Proof.
  destruct (analyze_null_on_failure down "www.example.com" fresh_world)
    as (_ & Htcp & _ & _ & Hout & _).
  assert (H : (analyze_cipher_strength down "www.example.com" fresh_world).1 = Returns None)
    by (apply (Htcp 1%N OSError); reflexivity).
  split; [exact H|].
  rewrite (Hout "Scanning..." (analyze_cipher_strength down "www.example.com" fresh_world).2).
  - reflexivity.
  - destruct (analyze_cipher_strength down "www.example.com" fresh_world) as [o w1].
    simpl in H. rewrite H. reflexivity.
Defined.

Lemma export_report_shape_witness :
  on_export_json down noon_2024_12_31 "www.example.com" fresh_world
    = (Raises OSError, {| cert_cache := ∅; wire := [TcpConnect "www.example.com" 443] |}) /\
  exists n w3,
    on_export_json live noon_2024_12_31 "www.example.com" fresh_world =
      (Returns ("ssl_report_www_example_com.json",
                JObj [("domain", JStr "www.example.com");
                      ("certificate", cert_info_json site_info);
                      ("cipher", cipher_info_json (Some site_cipher));
                      ("ct_log_entries", JInt n);
                      ("scan_time", JStr "2024-12-31T12:00:00")]),
       w3) /\
    n = 2.
Proof.
  split.
  - apply (export_report_shape down noon_2024_12_31 "www.example.com" fresh_world).
    vm_compute. reflexivity.
  - destruct (export_report_shape live noon_2024_12_31 "www.example.com" fresh_world)
      as (_ & _ & Hrep).
    destruct (Hrep site_info site_world (Some site_cipher)
                (analyze_cipher_strength live "www.example.com" site_world).2
                [JObj [("id", JInt 1)]; JObj [("id", JInt 2)]]
                (on_export_json live noon_2024_12_31 "www.example.com" fresh_world).2)
      as (n & Hn & Hlen & _).
    + vm_compute. reflexivity.
    + vm_compute. reflexivity.
    + vm_compute. reflexivity.
    + exists n, (on_export_json live noon_2024_12_31 "www.example.com" fresh_world).2.
      split; [exact Hn | exact Hlen].
Defined.

(** The report when both optional parts are missing. *)
Example export_without_cipher_and_entries :
  (on_export_json
     {| tcp_connect := tcp_connect live;
        tls_handshake := fun _ => Answer 1 {| getpeercert := site_cert; cipher := None |};
        http_get := http_get live_later |}
     noon_2024_12_31 "www.example.com" fresh_world).1
  = Returns ("ssl_report_www_example_com.json",
             JObj [("domain", JStr "www.example.com");
                   ("certificate", cert_info_json site_info);
                   ("cipher", JNull);
                   ("ct_log_entries", JInt 0);
                   ("scan_time", JStr "2024-12-31T12:00:00")]).
Proof. vm_compute. reflexivity. Qed.

(** * Further properties *)

(** ** Certificate Retriever: when it succeeds, what it sends *)

Lemma first_pairs_returns (name : list rdn) :
  (exists pairs, first_pairs name = Returns pairs) <-> Forall (fun x : rdn => x <> []) name.
Proof.
  induction name as [|x name IH]; simpl.
  - split; [intros _; constructor | intros _; eexists; reflexivity].
  - destruct x as [|kv x].
    + split; [intros [pairs H]; discriminate | intros H; inversion H; congruence].
    + split.
      * intros [pairs H]. constructor; [discriminate|]. apply IH.
        destruct (first_pairs name) as [kvs|e|]; [eexists; reflexivity | discriminate | discriminate].
      * intros H. inversion H as [|? ? _ Hrest]; subst.
        apply IH in Hrest as [kvs ->]. eexists; reflexivity.
Qed.

Lemma cert_info_of_returns_iff d c w :
  (exists r, (cert_info_of d c w).1 = Returns r) <-> complete_cert c.
Proof.
  split.
  - intros [r H]. destruct (cert_info_of d c w) as [o w'] eqn:E. simpl in H. subst o.
    apply cert_info_of_returns in E
      as (iss & sub & ipairs & spairs & nb & na & Hi & Hs & Hip & Hsp & Hnb & Hna & _).
    exists iss, sub, nb, na. repeat split; try assumption.
    + apply first_pairs_returns. eexists; exact Hip.
    + apply first_pairs_returns. eexists; exact Hsp.
  - intros (iss & sub & nb & na & Hi & Hs & Hnb & Hna & Hfi & Hfs).
    apply first_pairs_returns in Hfi as [ipairs Hip].
    apply first_pairs_returns in Hfs as [spairs Hsp].
    unfold cert_info_of. unfold_m. rewrite Hi. simpl. rewrite Hip. simpl.
    rewrite Hs. simpl. rewrite Hsp. simpl. rewrite Hnb, Hna. simpl.
    eexists; reflexivity.
Qed.

Lemma open_tls_returns net d w ssock :
  (open_tls net d w).1 = Returns ssock <->
  exists t1 t2, tcp_connect net d 443 = Answer t1 tt /\ tls_handshake net d = Answer t2 ssock.
Proof.
  rewrite open_tls_cases. unfold connect, await.
  destruct (tcp_connect net d 443) as [t1 []|t1 e|].
  - destruct (tls_handshake net d) as [t2 s|t2 e|]; split.
    + intros H. injection H as ->. exists t1, t2. auto.
    + intros (? & ? & _ & H). congruence.
    + discriminate.
    + intros (? & ? & _ & H). discriminate.
    + discriminate.
    + intros (? & ? & _ & H). discriminate.
  - split; [discriminate | intros (? & ? & H & _); discriminate].
  - split; [discriminate | intros (? & ? & H & _); discriminate].
Qed.

Lemma open_tls_wire net d w :
  wire (open_tls net d w).2 =
    (wire w ++ TcpConnect d 443 ::
       match tcp_connect net d 443 with
       | Answer _ _ => [TlsHandshake d]
       | _ => []
       end)%list.
Proof.
  unfold open_tls, await. unfold_m. simpl.
  destruct (tcp_connect net d 443) as [t1 []|t1 e|]; simpl; try reflexivity.
  rewrite <- app_assoc. reflexivity.
Qed.

(** X1: with no entry for the domain in the cache, [get_cert_info] returns a
    record exactly when the TCP connection and the TLS handshake are
    answered and the peer certificate has its issuer, subject, notBefore and
    notAfter entries with no empty RDN; a serial number is not needed. *)
Theorem get_cert_info_returns_iff net d w :
  cert_cache w !! d = None ->
  ((exists r, (get_cert_info net d w).1 = Returns r) <->
   exists t1 t2 ssock,
     tcp_connect net d 443 = Answer t1 tt /\
     tls_handshake net d = Answer t2 ssock /\
     complete_cert (getpeercert ssock)).
Proof.
  intros Hmiss. rewrite (get_cert_info_miss net d w Hmiss).
  pose proof (open_tls_returns net d w) as Ho.
  destruct (open_tls net d w) as [[ssock|e|] w1]; simpl in Ho.
  - pose proof (cert_info_of_returns_iff d (getpeercert ssock) w1) as Hc.
    destruct (proj1 (Ho ssock) eq_refl) as (t1 & t2 & Ht & Hh).
    destruct (cert_info_of d (getpeercert ssock) w1) as [[info|e|] w2]; simpl in *.
    + split; [|intros _; eexists; reflexivity].
      intros _. exists t1, t2, ssock. repeat split; try assumption.
      apply Hc. eexists; reflexivity.
    + split; [intros [r H]; discriminate|].
      intros (t1' & t2' & s' & Ht' & Hh' & Hcc).
      assert (s' = ssock) by congruence. subst s'.
      apply Hc in Hcc as [r Hr]. discriminate.
    + split; [intros [r H]; discriminate|].
      intros (t1' & t2' & s' & Ht' & Hh' & Hcc).
      assert (s' = ssock) by congruence. subst s'.
      apply Hc in Hcc as [r Hr]. discriminate.
  - split; [intros [r H]; discriminate|].
    intros (t1 & t2 & s & Ht & Hh & _).
    assert (H : Raises e = Returns s) by (apply Ho; eauto). discriminate.
  - split; [intros [r H]; discriminate|].
    intros (t1 & t2 & s & Ht & Hh & _).
    assert (H : Blocks = Returns s) by (apply Ho; eauto). discriminate.
Qed.

Lemma get_cert_info_returns_iff_witness :
  cert_cache fresh_world !! "www.example.com" = None /\
  (exists r, (get_cert_info live "www.example.com" fresh_world).1 = Returns r).
Proof.
  split; [reflexivity|].
  apply (get_cert_info_returns_iff live "www.example.com" fresh_world); [reflexivity|].
  exists 1%N, 1%N, site_session. split; [reflexivity|]. split; [reflexivity|].
  exists ca_name, site_name, "Jan  1 00:00:00 2025 GMT", "Jan  1 00:00:00 2026 GMT".
  repeat split; repeat constructor; discriminate.
Defined.

(** X2: [get_cert_info] talks to the named host on port 443 and to nobody
    else: on a cache hit it sends nothing; on a miss it opens one TCP
    connection and, when that is answered, starts one TLS handshake.  It
    never sends an HTTP request. *)
Theorem get_cert_info_wire net d w :
  wire (get_cert_info net d w).2 =
    (wire w ++
       match cert_cache w !! d with
       | Some _ => []
       | None =>
           TcpConnect d 443 ::
             match tcp_connect net d 443 with
             | Answer _ _ => [TlsHandshake d]
             | _ => []
             end
       end)%list.
Proof.
  destruct (cert_cache w !! d) as [r|] eqn:Hc.
  - rewrite (get_cert_info_hit net d w r Hc). simpl. rewrite app_nil_r. reflexivity.
  - rewrite (get_cert_info_miss net d w Hc).
    pose proof (open_tls_wire net d w) as Hw.
    destruct (open_tls net d w) as [[ssock|e|] w1]; simpl in Hw; try exact Hw.
    destruct (cert_info_of d (getpeercert ssock) w1) as [[info|e|] w2]; exact Hw.
Qed.

(** ** The optional parts and the cache *)

Lemma open_tls_outcome net d w1 w2 : (open_tls net d w1).1 = (open_tls net d w2).1.
Proof. rewrite !open_tls_cases. reflexivity. Qed.

Lemma analyze_outcome net d w1 w2 :
  (analyze_cipher_strength net d w1).1 = (analyze_cipher_strength net d w2).1.
Proof.
  rewrite !analyze_cases.
  pose proof (open_tls_outcome net d w1 w2) as Ho.
  destruct (open_tls net d w1) as [[s1|e1|] w1'], (open_tls net d w2) as [[s2|e2|] w2'];
    simpl in Ho; try discriminate; try reflexivity.
  injection Ho as ->. destruct (cipher s2) as [[[c0 c1] c2]|]; reflexivity.
Qed.

(** X3: [analyze_cipher_strength] and [check_cert_transparency] neither read
    nor write the cache: each gives the same result in any two states of the
    process and leaves the cache as it found it.  The analyzer in particular
    opens its own connection even when the certificate of the domain is
    cached. *)
Theorem enrichments_ignore_cache net d w :
  cert_cache (analyze_cipher_strength net d w).2 = cert_cache w /\
  cert_cache (check_cert_transparency net d w).2 = cert_cache w /\
  (forall w2,
     (analyze_cipher_strength net d w2).1 = (analyze_cipher_strength net d w).1 /\
     (check_cert_transparency net d w2).1 = (check_cert_transparency net d w).1) /\
  (exists ops, wire (analyze_cipher_strength net d w).2
               = (wire w ++ TcpConnect d 443 :: ops)%list) /\
  wire (check_cert_transparency net d w).2 = (wire w ++ [HttpGet (CRTSH_URL d)])%list.
Proof.
  split; [apply analyze_cache|]. split; [apply correlate_cache|]. split; [|split].
  - intros w2. split; [apply analyze_outcome|]. rewrite !correlate_cases. reflexivity.
  - rewrite analyze_cases. pose proof (open_tls_wire net d w) as Hw.
    destruct (open_tls net d w) as [[ssock|e|] w1]; simpl in Hw.
    + destruct (cipher ssock) as [[[c0 c1] c2]|]; simpl; rewrite Hw; eexists; reflexivity.
    + simpl. rewrite Hw. eexists; reflexivity.
    + simpl. rewrite Hw. eexists; reflexivity.
  - rewrite correlate_cases. reflexivity.
Qed.

(** ** Export JSON: what goes over the wire *)

Lemma get_cert_info_returns_wire net d w r w' :
  get_cert_info net d w = (Returns r, w') ->
  cert_cache w' !! d = Some r /\
  wire w' =
    (wire w ++ match cert_cache w !! d with
               | Some _ => []
               | None => [TcpConnect d 443; TlsHandshake d]
               end)%list /\
  (cert_cache w !! d = None -> exists t, tcp_connect net d 443 = Answer t tt).
Proof.
  intros H. apply get_cert_info_returns in H
    as [[Hhit ->] | [Hmiss (ssock & w1 & Ho & _ & ->)]].
  - rewrite Hhit. rewrite app_nil_r. split; [reflexivity|]. split; [reflexivity|].
    intros E. congruence.
  - rewrite Hmiss. simpl. split; [apply lookup_insert_eq|].
    pose proof (open_tls_wire net d w) as Hw.
    pose proof (proj1 (open_tls_returns net d w ssock)) as Hr.
    rewrite Ho in Hw, Hr. simpl in Hw, Hr.
    destruct (Hr eq_refl) as (t1 & t2 & Ht & _).
    rewrite Ht in Hw. split; [exact Hw|]. intros _. exists t1. exact Ht.
Qed.

Lemma analyze_wire net d w :
  wire (analyze_cipher_strength net d w).2 =
    (wire w ++ TcpConnect d 443 ::
       match tcp_connect net d 443 with
       | Answer _ _ => [TlsHandshake d]
       | _ => []
       end)%list.
Proof.
  rewrite analyze_cases. pose proof (open_tls_wire net d w) as Hw.
  destruct (open_tls net d w) as [[ssock|e|] w1]; simpl in Hw; try exact Hw.
  destruct (cipher ssock) as [[[c0 c1] c2]|]; exact Hw.
Qed.

Lemma on_export_json_same_answers net now d :
  on_export_json net now d = on_export_json_at net net net now d.
Proof. reflexivity. Qed.

(** X4: when the Export JSON branch produces its report, the certificate in
    the report is the record the cache then holds for the domain, and the
    branch has sent, in this order: on a cache miss the retriever's TCP
    connection and TLS handshake, on a hit nothing for the retriever; then
    the analyzer's own TCP connection, followed by its handshake when that
    connection is answered; then one HTTP request to the transparency log.
    The analyzer's connection may fail after the retriever's succeeded: the
    report is produced all the same. *)
Theorem export_wire net1 net2 net3 now d w filename report w' :
  on_export_json_at net1 net2 net3 now d w = (Returns (filename, report), w') ->
  (exists r fields,
     cert_cache w' !! d = Some r /\ report = JObj fields /\
     fields !! 1%nat = Some ("certificate", cert_info_json r)) /\
  wire w' =
    (wire w ++
       match cert_cache w !! d with
       | None => [TcpConnect d 443; TlsHandshake d]
       | Some _ => []
       end ++
       TcpConnect d 443 ::
         match tcp_connect net2 d 443 with
         | Answer _ _ => [TlsHandshake d]
         | _ => []
         end ++ [HttpGet (CRTSH_URL d)])%list.
Proof.
  unfold on_export_json_at, bind, lift, ret.
  destruct (get_cert_info net1 d w) as [[r|e|] w1] eqn:H1; try discriminate.
  pose proof (analyze_wire net2 d w1) as Hw2.
  pose proof (analyze_cache net2 d w1) as Hc2.
  destruct (analyze_cipher_strength net2 d w1) as [[c|e|] w2]; try discriminate.
  simpl in Hw2, Hc2.
  rewrite (correlate_cases net3 d w2).
  destruct (len _) as [n|e|]; try discriminate.
  intros H. injection H as <- <- <-.
  apply get_cert_info_returns_wire in H1 as (Hin & Hw1 & _).
  split.
  - exists r. eexists. simpl. rewrite Hc2. split; [exact Hin|]. split; reflexivity.
  - simpl. rewrite Hw2, Hw1. rewrite <- !app_assoc. reflexivity.
Qed.

Lemma export_wire_witness :
  exists w',
    on_export_json_at live down live noon_2024_12_31 "www.example.com" fresh_world
      = (Returns ("ssl_report_www_example_com.json",
                  JObj [("domain", JStr "www.example.com");
                        ("certificate", cert_info_json site_info);
                        ("cipher", JNull);
                        ("ct_log_entries", JInt 2);
                        ("scan_time", JStr "2024-12-31T12:00:00")]), w') /\
    wire w' =
      [TcpConnect "www.example.com" 443; TlsHandshake "www.example.com";
       TcpConnect "www.example.com" 443;
       HttpGet "https://crt.sh/?q=www.example.com&output=json"].
Proof.
  exists (on_export_json_at live down live noon_2024_12_31 "www.example.com" fresh_world).2.
  assert (H : on_export_json_at live down live noon_2024_12_31 "www.example.com" fresh_world
              = (Returns ("ssl_report_www_example_com.json",
                          JObj [("domain", JStr "www.example.com");
                                ("certificate", cert_info_json site_info);
                                ("cipher", JNull);
                                ("ct_log_entries", JInt 2);
                                ("scan_time", JStr "2024-12-31T12:00:00")]),
                 (on_export_json_at live down live noon_2024_12_31 "www.example.com"
                    fresh_world).2))
    by (vm_compute; reflexivity).
  split; [exact H|].
  destruct (export_wire live down live noon_2024_12_31 "www.example.com" fresh_world
              _ _ _ H) as [_ Hw].
  rewrite Hw. reflexivity.
Defined.

(** ** Expiry: the mark and the time left *)

Lemma strptime_returns s e : strptime s = Returns e -> parse_cert_date s = Some e.
Proof. unfold strptime. destruct (parse_cert_date s); [congruence | discriminate]. Qed.

Lemma days_until_expiry_returns now s e :
  strptime s = Returns e ->
  days_until_expiry now s = Returns ((instant e - instant now) / day_us).
Proof.
  intros H. unfold days_until_expiry. rewrite H, datetime_sub_days. reflexivity.
Qed.

(** X5: the mark the Scan branch shows depends on the time left until the
    end date as follows: the healthy mark exactly when at least 31 full days
    are left, the warning mark exactly when at least 1 and less than 31 full
    days are left, and the expired mark exactly when less than one full day
    is left, which includes a certificate that is still valid for some
    hours. *)
Theorem expiry_mark_by_time_left now s e :
  strptime s = Returns e ->
  exists d,
    days_until_expiry now s = Returns d /\
    (expiry_status d = "✅" <-> 31 * day_us <= instant e - instant now) /\
    (expiry_status d = "⚠️" <-> day_us <= instant e - instant now < 31 * day_us) /\
    (expiry_status d = "❌" <-> instant e - instant now < day_us).
Proof.
  intros H. exists ((instant e - instant now) / day_us).
  split; [apply days_until_expiry_returns, H|].
  pose proof (proj1 (floor_bounds (instant e - instant now) _) eq_refl) as Hb.
  set (d := (instant e - instant now) / day_us) in *.
  unfold expiry_status, day_us in *.
  destruct (30 <? d) eqn:H30; [apply Z.ltb_lt in H30 | apply Z.ltb_ge in H30].
  - repeat split; intros; try discriminate; try reflexivity; lia.
  - destruct (0 <? d) eqn:H0; [apply Z.ltb_lt in H0 | apply Z.ltb_ge in H0];
      repeat split; intros; try discriminate; try reflexivity; lia.
Qed.

Lemma expiry_mark_by_time_left_witness :
  exists d,
    days_until_expiry noon_2024_12_31 "Jan  1 00:00:00 2025 GMT" = Returns d /\
    expiry_status d = "❌".
Proof.
  destruct (expiry_mark_by_time_left noon_2024_12_31 "Jan  1 00:00:00 2025 GMT"
              {| year := 2025; month := 1; day := 1; hour := 0; minute := 0;
                 second := 0; microsecond := 0 |} eq_refl)
    as (d & Hd & _ & _ & Hx).
  exists d. split; [exact Hd|]. apply Hx. vm_compute. reflexivity.
Defined.

(** ** Expiry: the sign and the calendar *)

Lemma is_leap_spec (y : Z) :
  is_leap y = true <-> y mod 4 = 0 /\ (y mod 100 <> 0 \/ y mod 400 = 0).
Proof.
  unfold is_leap.
  rewrite andb_true_iff, orb_true_iff, negb_true_iff, !Z.eqb_eq, Z.eqb_neq. tauto.
Qed.

Lemma days_before_year_succ (y : Z) :
  days_before_year (y + 1) = days_before_year y + year_length y.
Proof.
  unfold days_before_year, year_length.
  replace (y + 1 - 1) with y by lia.
  destruct (is_leap y) eqn:E.
  - apply is_leap_spec in E. Z.div_mod_to_equations. lia.
  - assert (H : ~ (y mod 4 = 0 /\ (y mod 100 <> 0 \/ y mod 400 = 0))).
    { rewrite <- is_leap_spec. congruence. }
    Z.div_mod_to_equations. lia.
Qed.

Lemma year_length_pos (y : Z) : 365 <= year_length y <= 366.
Proof. unfold year_length. destruct (is_leap y); lia. Qed.

Lemma days_before_year_next (y1 y2 : Z) :
  y1 < y2 -> days_before_year y1 + year_length y1 <= days_before_year y2.
Proof.
  intros H. replace y2 with (y1 + 1 + (y2 - y1 - 1)) by lia.
  assert (Hn : 0 <= y2 - y1 - 1) by lia. revert Hn.
  generalize (y2 - y1 - 1). intros n Hn. pattern n.
  apply natlike_ind; [| |exact Hn].
  - rewrite Z.add_0_r, days_before_year_succ. lia.
  - intros k Hk IH.
    replace (y1 + 1 + Z.succ k) with (y1 + 1 + k + 1) by lia.
    rewrite days_before_year_succ.
    pose proof (year_length_pos (y1 + 1 + k)). lia.
Qed.

Lemma month_cases (m : Z) :
  1 <= m <= 12 ->
  m = 1 \/ m = 2 \/ m = 3 \/ m = 4 \/ m = 5 \/ m = 6 \/
  m = 7 \/ m = 8 \/ m = 9 \/ m = 10 \/ m = 11 \/ m = 12.
Proof. lia. Qed.

(** Within a year the day of the year lies between 1 and the length of the
    year. *)
Lemma day_of_year_bounds (y m d : Z) :
  1 <= m <= 12 -> 1 <= d <= days_in_month y m ->
  1 <= days_before_month y m + d <= year_length y.
Proof.
  intros Hm. unfold days_in_month, days_before_month, year_length.
  destruct (month_cases m Hm) as [->|[->|[->|[->|[->|[->|[->|[->|[->|[->|[->| ->]]]]]]]]]]];
    destruct (is_leap y); simpl; lia.
Qed.

Lemma day_of_year_next_month (y m1 d1 m2 d2 : Z) :
  1 <= m1 -> m1 < m2 -> m2 <= 12 -> d1 <= days_in_month y m1 -> 1 <= d2 ->
  days_before_month y m1 + d1 < days_before_month y m2 + d2.
Proof.
  intros H1 H12 H2. unfold days_in_month, days_before_month.
  assert (Hm1 : 1 <= m1 <= 12) by lia. assert (Hm2 : 1 <= m2 <= 12) by lia.
  destruct (month_cases m1 Hm1) as [->|[->|[->|[->|[->|[->|[->|[->|[->|[->|[->| ->]]]]]]]]]]];
    destruct (month_cases m2 Hm2) as [->|[->|[->|[->|[->|[->|[->|[->|[->|[->|[->| ->]]]]]]]]]]];
    try lia; destruct (is_leap y); simpl; lia.
Qed.

Lemma datetime_ok_spec (t : datetime) :
  datetime_ok t = true ->
  1 <= year t <= 9999 /\ 1 <= month t <= 12 /\
  1 <= day t <= days_in_month (year t) (month t) /\
  0 <= hour t <= 23 /\ 0 <= minute t <= 59 /\ 0 <= second t <= 59 /\
  0 <= microsecond t <= 999999.
Proof.
  unfold datetime_ok. rewrite !andb_true_iff, !Z.leb_le. tauto.
Qed.

(** Dates in calendar order have ordinals in the same order. *)
Lemma toordinal_lt (a b : datetime) :
  datetime_ok a = true -> datetime_ok b = true ->
  year a < year b \/ year a = year b /\
    (month a < month b \/ month a = month b /\ day a < day b) ->
  toordinal a < toordinal b.
Proof.
  intros Ha Hb. apply datetime_ok_spec in Ha as (_ & Hma & Hda & _).
  apply datetime_ok_spec in Hb as (_ & Hmb & Hdb & _).
  unfold toordinal, ymd2ord.
  pose proof (day_of_year_bounds _ _ _ Hma Hda) as Ba.
  pose proof (day_of_year_bounds _ _ _ Hmb Hdb) as Bb.
  intros [Hy | [Hy [Hm | [Hm Hd]]]].
  - pose proof (days_before_year_next _ _ Hy). lia.
  - rewrite Hy in *.
    pose proof (day_of_year_next_month (year b) (month a) (day a) (month b) (day b)).
    lia.
  - rewrite Hy, Hm. lia.
Qed.

Lemma calendar_lt_instant (a b : datetime) :
  datetime_ok a = true -> datetime_ok b = true ->
  calendar_lt a b -> instant a < instant b.
Proof.
  intros Ha Hb H.
  pose proof (toordinal_lt a b Ha Hb) as Hord.
  pose proof (datetime_ok_spec a Ha) as (_ & _ & _ & Hha & Hmia & Hsa & Hua).
  pose proof (datetime_ok_spec b Hb) as (_ & _ & _ & Hhb & Hmib & Hsb & Hub).
  unfold instant.
  assert (Hcase : toordinal a < toordinal b \/
                  (year a = year b /\ month a = month b /\ day a = day b /\
                   (hour a < hour b \/ hour a = hour b /\
                    (minute a < minute b \/ minute a = minute b /\
                     (second a < second b \/ second a = second b /\
                      microsecond a < microsecond b))))).
  { unfold calendar_lt in H.
    destruct H as [Hy | [Hy [Hm | [Hm [Hd | [Hd Hrest]]]]]].
    - left. apply Hord. auto.
    - left. apply Hord. auto.
    - left. apply Hord. auto.
    - right. auto. }
  destruct Hcase as [Ho | (Hy & Hm & Hd & Hrest)].
  - lia.
  - assert (Ho : toordinal a = toordinal b).
    { unfold toordinal. rewrite Hy, Hm, Hd. reflexivity. }
    rewrite Ho. lia.
Qed.

Lemma calendar_trichotomy (a b : datetime) :
  calendar_lt a b \/ calendar_lt b a \/
  (year a = year b /\ month a = month b /\ day a = day b /\ hour a = hour b /\
   minute a = minute b /\ second a = second b /\ microsecond a = microsecond b).
Proof. unfold calendar_lt. lia. Qed.

Lemma instant_lt_calendar (a b : datetime) :
  datetime_ok a = true -> datetime_ok b = true ->
  (instant a < instant b <-> calendar_lt a b).
Proof.
  intros Ha Hb. split; [|apply calendar_lt_instant; assumption].
  intros H. destruct (calendar_trichotomy a b) as [Hlt | [Hgt | Heq]].
  - exact Hlt.
  - apply (calendar_lt_instant b a Hb Ha) in Hgt. lia.
  - destruct Heq as (Hy & Hm & Hd & Hh & Hmi & Hs & Hu).
    unfold instant, toordinal in H. rewrite Hy, Hm, Hd, Hh, Hmi, Hs, Hu in H. lia.
Qed.

Lemma parse_cert_date_ok s e : parse_cert_date s = Some e -> datetime_ok e = true.
Proof.
  unfold parse_cert_date. intros H.
  repeat match type of H with
         | context [mbind _ ?x] => destruct x as [?|]; simpl in H; [|discriminate]
         | context [match ?x with (_, _) => _ end] => destruct x; simpl in H
         end.
  destruct (zone _); [|discriminate].
  match type of H with
  | context [datetime_ok ?t] => destruct (datetime_ok t) eqn:E; [|discriminate]
  end.
  injection H as <-. exact E.
Qed.

(** X6: for a valid reading of the clock, the number [days_until_expiry]
    returns is negative exactly when the end date comes before now on the
    calendar and the clock (year, month, day, hour, minute, second,
    microsecond compared in that order). *)
Theorem days_until_expiry_negative_iff_past now s e :
  datetime_ok now = true ->
  strptime s = Returns e ->
  exists d,
    days_until_expiry now s = Returns d /\
    (d < 0 <-> calendar_lt e now).
Proof.
  intros Hnow Hs. exists ((instant e - instant now) / day_us).
  split; [apply days_until_expiry_returns, Hs|].
  pose proof (parse_cert_date_ok s e (strptime_returns s e Hs)) as He.
  rewrite <- (instant_lt_calendar e now He Hnow).
  pose proof (proj1 (floor_bounds (instant e - instant now) _) eq_refl) as Hb.
  unfold day_us in *. lia.
Qed.

Lemma days_until_expiry_negative_iff_past_witness :
  exists d,
    days_until_expiry noon_2024_12_31 "Dec 31 11:59:59 2024 GMT" = Returns d /\ d < 0.
Proof.
  destruct (days_until_expiry_negative_iff_past noon_2024_12_31 "Dec 31 11:59:59 2024 GMT"
              {| year := 2024; month := 12; day := 31; hour := 11; minute := 59;
                 second := 59; microsecond := 0 |} eq_refl eq_refl)
    as (d & Hd & Hneg).
  exists d. split; [exact Hd|]. apply Hneg. unfold calendar_lt. simpl. lia.
Defined.

(** ** The Scan branch *)

Lemma correlate_returns net d w :
  exists v, check_cert_transparency net d w
            = (Returns v, {| cert_cache := cert_cache w;
                             wire := wire w ++ [HttpGet (CRTSH_URL d)] |}) /\
            forall w2, (check_cert_transparency net d w2).1 = Returns v.
Proof.
  rewrite correlate_cases. eexists. split; [reflexivity|].
  intros w2. rewrite correlate_cases. reflexivity.
Qed.

Lemma on_scan_cache net now d w :
  cert_cache (on_scan net now d w).2 = cert_cache (get_cert_info net d w).2.
Proof.
  unfold on_scan, submit_both, bind, lift, ret.
  destruct (get_cert_info net d w) as [o1 w1].
  destruct (correlate_returns net d w1) as (v & -> & _). simpl.
  destruct o1 as [r|e|]; simpl; try reflexivity.
  destruct (days_until_expiry now (valid_to r)) as [dl|e|]; simpl; try reflexivity.
  destruct (truthy v); simpl; [|reflexivity].
  destruct (len v); reflexivity.
Qed.

Lemma on_scan_returns_parsed net now d w :
  (exists text, (on_scan net now d w).1 = Returns text) <->
  (exists r e v,
     (get_cert_info net d w).1 = Returns r /\
     strptime (valid_to r) = Returns e /\
     (check_cert_transparency net d w).1 = Returns v /\
     ~ truthy_without_len v).
Proof.
  unfold on_scan, submit_both, bind, lift, ret.
  destruct (get_cert_info net d w) as [o1 w1].
  destruct (correlate_returns net d w1) as (v & Hv & Hany).
  rewrite Hv. rewrite (Hany w). simpl.
  destruct o1 as [r|e1|]; simpl;
    try (split; [intros [t H]; discriminate | intros (r & e & v' & H & _); discriminate]).
  unfold days_until_expiry.
  destruct (strptime (valid_to r)) as [e|e2|] eqn:Hp; simpl;
    try (split; [intros [t H]; discriminate
                | intros (r' & e & v' & H1 & H2 & _); injection H1 as <-; congruence]).
  split.
  - intros [text H]. exists r, e, v.
    split; [reflexivity|]. split; [exact Hp|]. split; [reflexivity|].
    intros [-> | [(n & -> & Hn) | (x & -> & Hx)]]; simpl in H.
    + discriminate.
    + apply Z.eqb_neq in Hn. rewrite Hn in H. simpl in H. discriminate.
    + destruct x as [sign| | |]; simpl in H; try discriminate.
      exact (Hx sign eq_refl).
  - intros (r' & e' & v' & H1 & _ & H3 & Hno). injection H3 as <-.
    destruct v as [|b|n|x|s|items|fields]; simpl.
    + eexists; reflexivity.
    + destruct b; [|eexists; reflexivity].
      exfalso. apply Hno. left. reflexivity.
    + destruct (n =? 0) eqn:E; simpl; [eexists; reflexivity|].
      apply Z.eqb_neq in E. exfalso. apply Hno. right. left. exists n. auto.
    + destruct x as [sign| | |]; simpl; try (eexists; reflexivity);
        exfalso; apply Hno; right; right; eexists; split; try reflexivity;
        intros sign'; discriminate.
    + destruct (negb (String.eqb s "")); eexists; reflexivity.
    + destruct items; eexists; reflexivity.
    + destruct fields; eexists; reflexivity.
Qed.

Lemma days_until_expiry_returns_iff now s :
  (exists dl, days_until_expiry now s = Returns dl) <-> (exists e, strptime s = Returns e).
Proof.
  unfold days_until_expiry.
  destruct (strptime s) as [e|e|]; split; intros [x H];
    try discriminate; eexists; reflexivity.
Qed.

(** X7: the Scan branch fills the output pane exactly when [get_cert_info]
    returns a record, [days_until_expiry] returns for its end date, and the
    transparency result is not a bare [true], a non-zero integer or a
    non-zero float (the values that are truthy and have no length); in
    every other case the branch raises or blocks and the pane is never
    filled. *)
Theorem on_scan_returns_iff net now d w :
  (exists text, (on_scan net now d w).1 = Returns text) <->
  (exists r days_left v,
     (get_cert_info net d w).1 = Returns r /\
     days_until_expiry now (valid_to r) = Returns days_left /\
     (check_cert_transparency net d w).1 = Returns v /\
     ~ truthy_without_len v).
Proof.
  rewrite on_scan_returns_parsed. split.
  - intros (r & e & v & H1 & H2 & H3).
    destruct (proj2 (days_until_expiry_returns_iff now (valid_to r)) (ex_intro _ e H2))
      as [dl Hdl].
    exists r, dl, v. auto.
  - intros (r & dl & v & H1 & H2 & H3).
    destruct (proj1 (days_until_expiry_returns_iff now (valid_to r)) (ex_intro _ dl H2))
      as [e He].
    exists r, e, v. auto.
Qed.

Lemma on_scan_returns_iff_witness :
  exists text, (on_scan live noon_2024_12_31 "www.example.com" fresh_world).1 = Returns text.
Proof.
  apply (on_scan_returns_iff live noon_2024_12_31 "www.example.com" fresh_world).
  exists site_info, 365, two_entries.
  split; [vm_compute; reflexivity|]. split; [vm_compute; reflexivity|].
  split; [vm_compute; reflexivity|].
  intros [H | [(n & H & _) | (x & H & _)]]; discriminate.
Defined.

(** ** The event loop *)

Lemma blank_cons c s : blank (String c s) <-> is_py_space c = true /\ blank s.
Proof.
  unfold blank. simpl. split.
  - intros H. inversion H; subst. auto.
  - intros [H1 H2]. constructor; assumption.
Qed.

Lemma blank_nil : blank "".
Proof. constructor. Qed.

Lemma rstrip_empty (s : string) : rstrip s = "" <-> blank s.
Proof.
  induction s as [|c s IH]; simpl.
  - split; [intros _; apply blank_nil | reflexivity].
  - rewrite blank_cons, <- IH. destruct (rstrip s) as [|k kept].
    + destruct (is_py_space c); split; try discriminate; intuition congruence.
    + split; [discriminate | intros [_ H]; discriminate].
Qed.

Lemma lstrip_blank (s : string) : blank (lstrip s) <-> blank s.
Proof.
  induction s as [|c s IH]; simpl; [reflexivity|].
  destruct (is_py_space c) eqn:E.
  - rewrite IH, blank_cons. tauto.
  - reflexivity.
Qed.

Lemma strip_empty (s : string) : strip s = "" <-> blank s.
Proof. unfold strip. rewrite rstrip_empty. apply lstrip_blank. Qed.

Lemma rstrip_idempotent (s : string) : rstrip (rstrip s) = rstrip s.
Proof.
  induction s as [|c s IH]; simpl; [reflexivity|].
  destruct (rstrip s) as [|k kept] eqn:E.
  - destruct (is_py_space c) eqn:Ec; simpl; [reflexivity|]. rewrite Ec. reflexivity.
  - change (rstrip (String c (String k kept))
            = String c (String k kept)).
    cbn [rstrip]. fold rstrip. cbn [rstrip] in IH. fold rstrip in IH. rewrite IH. reflexivity.
Qed.

Lemma lstrip_head (s : string) :
  lstrip s = "" \/ exists c rest, lstrip s = String c rest /\ is_py_space c = false.
Proof.
  induction s as [|c s IH]; simpl; [left; reflexivity|].
  destruct (is_py_space c) eqn:E; [exact IH|]. right. exists c, s. auto.
Qed.

Lemma rstrip_head c s :
  is_py_space c = false -> exists rest, rstrip (String c s) = String c rest.
Proof.
  intros E. simpl. destruct (rstrip s) as [|k kept].
  - rewrite E. eexists; reflexivity.
  - eexists; reflexivity.
Qed.

Lemma strip_idempotent (s : string) : strip (strip s) = strip s.
Proof.
  unfold strip. destruct (lstrip_head s) as [-> | (c & rest & -> & Ec)].
  - reflexivity.
  - destruct (rstrip_head c rest Ec) as [kept Hk].
    assert (Hl : lstrip (rstrip (String c rest)) = rstrip (String c rest)).
    { rewrite Hk. simpl. rewrite Ec. reflexivity. }
    rewrite Hl. apply rstrip_idempotent.
Qed.

(** X9: with a domain field that is empty or holds only whitespace, no turn
    of the loop touches the network or the cache, whatever was pressed:
    closing and Exit leave the loop, Clear empties both elements, and Scan,
    Check Ciphers and Export JSON leave the window as it is and write no
    file. *)
Theorem blank_domain_does_nothing net now ev win w :
  blank (DOMAIN win) ->
  main_step net now ev win w =
    (Returns match ev with
             | EvWinClosed | EvExit => Break
             | EvClear => Continue {| DOMAIN := ""; OUTPUT := "" |} None
             | EvScan | EvCheckCiphers | EvExportJSON => Continue win None
             end, w).
Proof.
  intros H. apply strip_empty in H.
  destruct ev; unfold main_step; try reflexivity; rewrite H; reflexivity.
Qed.

Lemma blank_domain_does_nothing_witness :
  main_step live noon_2024_12_31 EvScan {| DOMAIN := "   "; OUTPUT := "old" |} fresh_world
  = (Returns (Continue {| DOMAIN := "   "; OUTPUT := "old" |} None), fresh_world).
Proof.
  apply (blank_domain_does_nothing live noon_2024_12_31 EvScan
           {| DOMAIN := "   "; OUTPUT := "old" |} fresh_world).
  repeat constructor.
Defined.

(** The cache after one turn: what it was, or that with one more entry, for
    the stripped text of the domain field. *)
Lemma get_cert_info_cache net d w :
  cert_cache (get_cert_info net d w).2 = cert_cache w \/
  (cert_cache w !! d = None /\
   exists r, domain r = d /\
             cert_cache (get_cert_info net d w).2 = <[d := r]> (cert_cache w)).
Proof.
  destruct (cert_cache w !! d) as [r|] eqn:Hc.
  - left. rewrite (get_cert_info_hit net d w r Hc). reflexivity.
  - rewrite (get_cert_info_miss net d w Hc).
    pose proof (open_tls_cache net d w) as Hcache.
    destruct (open_tls net d w) as [[ssock|e|] w1]; simpl in Hcache; try (left; exact Hcache).
    destruct (cert_info_of d (getpeercert ssock) w1) as [[info|e|] w2] eqn:Hi;
      try (left; exact Hcache).
    right. split; [reflexivity|]. exists info. split; [|reflexivity].
    apply cert_info_of_returns in Hi
      as (? & ? & ? & ? & ? & ? & _ & _ & _ & _ & _ & _ & _ & ->).
    reflexivity.
Qed.

Lemma on_export_json_cache net now d w :
  cert_cache (on_export_json net now d w).2 = cert_cache (get_cert_info net d w).2.
Proof.
  unfold on_export_json, bind, lift, ret.
  destruct (get_cert_info net d w) as [[r|e|] w1]; simpl; try reflexivity.
  pose proof (analyze_cache net d w1) as H2.
  destruct (analyze_cipher_strength net d w1) as [[c|e|] w2]; simpl in *; try exact H2.
  rewrite (correlate_cases net d w2).
  destruct (len _); simpl; exact H2.
Qed.

Lemma main_step_cache net now ev win w :
  cert_cache (main_step net now ev win w).2 = cert_cache w \/
  (strip (DOMAIN win) <> "" /\
   cert_cache (main_step net now ev win w).2
   = cert_cache (get_cert_info net (strip (DOMAIN win)) w).2).
Proof.
  destruct ev; unfold main_step; try (left; reflexivity);
    destruct (String.eqb (strip (DOMAIN win)) "") eqn:E; try (left; reflexivity);
    apply String.eqb_neq in E.
  - right. split; [exact E|]. unfold bind, ret.
    pose proof (on_scan_cache net now (strip (DOMAIN win)) w) as H.
    destruct (on_scan net now (strip (DOMAIN win)) w) as [[o|e|] w1]; exact H.
  - left. unfold bind, ret.
    pose proof (on_check_ciphers_cache net (strip (DOMAIN win)) (OUTPUT win) w) as H.
    destruct (on_check_ciphers net (strip (DOMAIN win)) (OUTPUT win) w) as [[o|e|] w1];
      exact H.
  - right. split; [exact E|]. unfold bind, ret.
    pose proof (on_export_json_cache net now (strip (DOMAIN win)) w) as H.
    destruct (on_export_json net now (strip (DOMAIN win)) w) as [[o|e|] w1]; exact H.
Qed.

(** X10: in every state the program reaches, each entry of the cache sits
    under a key that is not empty and has no whitespace at either end (it
    is its own [strip]), and the record stored there names that key as its
    domain. *)
Theorem cache_keys_are_stripped_domains w k r :
  reachable w ->
  cert_cache w !! k = Some r ->
  k <> "" /\ strip k = k /\ domain r = k.
Proof.
  intros Hreach. revert k r. induction Hreach as [|w net now ev win Hreach IH].
  - intros k r H. simpl in H. rewrite lookup_empty in H. discriminate.
  - intros k r H.
    destruct (main_step_cache net now ev win w) as [Hsame | [Hne Hget]].
    + rewrite Hsame in H. apply IH, H.
    + rewrite Hget in H.
      destruct (get_cert_info_cache net (strip (DOMAIN win)) w)
        as [Hsame | (_ & r' & Hdom & Hins)].
      * rewrite Hsame in H. apply IH, H.
      * rewrite Hins in H.
        destruct (decide (strip (DOMAIN win) = k)) as [<-|Hk].
        -- rewrite lookup_insert_eq in H. injection H as <-.
           split; [exact Hne|]. split; [apply strip_idempotent | exact Hdom].
        -- rewrite lookup_insert_ne in H by exact Hk. apply IH, H.
Qed.

Lemma cache_keys_are_stripped_domains_witness :
  let w := (main_step live noon_2024_12_31 EvScan
              {| DOMAIN := "  www.example.com "; OUTPUT := "" |} fresh_world).2 in
  cert_cache w !! "www.example.com" = Some site_info /\
  strip "www.example.com" = "www.example.com" /\
  domain site_info = "www.example.com".
Proof.
  intros w.
  assert (H : cert_cache w !! "www.example.com" = Some site_info)
    by (vm_compute; reflexivity).
  split; [exact H|].
  apply (cache_keys_are_stripped_domains w "www.example.com" site_info).
  - apply reachable_turn, reachable_start.
  - exact H.
Defined.

Lemma main_step_keeps net now ev win w k r :
  cert_cache w !! k = Some r -> cert_cache (main_step net now ev win w).2 !! k = Some r.
Proof.
  intros H. destruct (main_step_cache net now ev win w) as [-> | [_ ->]]; [exact H|].
  apply get_cert_info_keeps, H.
Qed.

Lemma main_loop_reachable inputs output files w :
  reachable w -> reachable (main_loop inputs output files w).2.
Proof.
  revert output files w. induction inputs as [|i later IH]; intros output files w Hw.
  - exact Hw.
  - cbn [main_loop]. unfold bind.
    pose proof (reachable_turn w (answers i) (clock i) (pressed i)
                  {| DOMAIN := typed i; OUTPUT := output |} Hw) as Hnext.
    destruct (main_step _ _ _ _ w) as [[[|win saved]|e|] w1]; simpl in Hnext;
      try exact Hnext.
    apply IH, Hnext.
Qed.



(** X11: a session never drops or replaces a cached certificate: whatever
    the events, the texts typed, the answers of the network and the way the
    session ends, an entry the cache holds at some point is still there,
    unchanged, at the end. *)
Theorem session_keeps_cache inputs output files w k r :
  cert_cache w !! k = Some r ->
  cert_cache (main_loop inputs output files w).2 !! k = Some r.
Proof.
  revert output files w. induction inputs as [|i later IH]; intros output files w H.
  - exact H.
  - cbn [main_loop]. unfold bind.
    pose proof (main_step_keeps (answers i) (clock i) (pressed i)
                  {| DOMAIN := typed i; OUTPUT := output |} w k r H) as Hnext.
    destruct (main_step _ _ _ _ w) as [[[|win saved]|e|] w1]; simpl in Hnext;
      try exact Hnext.
    apply IH, Hnext.
Qed.

Lemma session_keeps_cache_witness :
  cert_cache site_world !! "www.example.com" = Some site_info /\
  cert_cache
    (main_loop
       [{| answers := live_later; clock := noon_2024_12_31; pressed := EvScan;
           typed := "www.example.com" |};
        {| answers := down; clock := noon_2024_12_31; pressed := EvExportJSON;
           typed := "ca.example" |}]
       "" [] site_world).2 !! "www.example.com" = Some site_info.
Proof.
  assert (H : cert_cache site_world !! "www.example.com" = Some site_info)
    by (vm_compute; reflexivity).
  split; [exact H|].
  apply (session_keeps_cache _ "" [] site_world "www.example.com" site_info H).
Defined.

(** ** The time stamp of the report *)

Lemma digit_eq (a b : Z) : digit a = digit b -> a mod 10 = b mod 10.
Proof.
  unfold digit. intros H. apply (f_equal nat_of_ascii) in H.
  assert (Ha : 0 <= a mod 10 < 10) by (apply Z.mod_pos_bound; lia).
  assert (Hb : 0 <= b mod 10 < 10) by (apply Z.mod_pos_bound; lia).
  rewrite !nat_ascii_embedding in H by lia. lia.
Qed.

Lemma two_digits (a b : Z) :
  0 <= a < 100 -> 0 <= b < 100 ->
  (a / 10) mod 10 = (b / 10) mod 10 -> a mod 10 = b mod 10 -> a = b.
Proof. intros Ha Hb H1 H2. Z.div_mod_to_equations. lia. Qed.

Lemma pad2_eq (a b : Z) (s t : string) :
  0 <= a < 100 -> 0 <= b < 100 -> pad2 a ++ s = pad2 b ++ t -> a = b /\ s = t.
Proof.
  intros Ha Hb H. unfold pad2 in H. rewrite !append_cons in H.
  change ("" ++ s) with s in H. change ("" ++ t) with t in H.
  injection H as H1 H2 H3. apply digit_eq in H1, H2.
  split; [apply two_digits; assumption | exact H3].
Qed.

Lemma append_assoc (a b c : string) : (a ++ b) ++ c = a ++ (b ++ c).
Proof. induction a as [|x a IH]; [reflexivity|]. rewrite !append_cons, IH. reflexivity. Qed.

Lemma pad4_eq (a b : Z) (s t : string) :
  0 <= a < 10000 -> 0 <= b < 10000 -> pad4 a ++ s = pad4 b ++ t -> a = b /\ s = t.
Proof.
  intros Ha Hb H. unfold pad4 in H. rewrite !append_assoc in H.
  apply pad2_eq in H as [H1 H]; [|Z.div_mod_to_equations; lia..].
  apply pad2_eq in H as [H2 H]; [|Z.div_mod_to_equations; lia..].
  split; [|exact H]. Z.div_mod_to_equations. lia.
Qed.

Lemma pad6_eq (a b : Z) (s t : string) :
  0 <= a < 1000000 -> 0 <= b < 1000000 -> pad6 a ++ s = pad6 b ++ t -> a = b /\ s = t.
Proof.
  intros Ha Hb H. unfold pad6 in H. rewrite !append_assoc in H.
  apply pad2_eq in H as [H1 H]; [|Z.div_mod_to_equations; lia..].
  apply pad4_eq in H as [H2 H]; [|Z.div_mod_to_equations; lia..].
  split; [|exact H]. Z.div_mod_to_equations. lia.
Qed.

Lemma literal_eq (c : ascii) (s t : string) : String c "" ++ s = String c "" ++ t -> s = t.
Proof. rewrite !append_cons. intros H. injection H as H. exact H. Qed.

Lemma append_empty_r (s : string) : s ++ "" = s.
Proof. induction s as [|c s IH]; [reflexivity|]. rewrite append_cons, IH. reflexivity. Qed.

Lemma isoformat_eq (a b : datetime) :
  datetime_ok a = true -> datetime_ok b = true ->
  isoformat a = isoformat b -> a = b.
Proof.
  intros Ha Hb H.
  apply datetime_ok_spec in Ha as (Hya & Hma & Hda & Hha & Hmia & Hsa & Hua).
  apply datetime_ok_spec in Hb as (Hyb & Hmb & Hdb & Hhb & Hmib & Hsb & Hub).
  assert (Hda' : 1 <= day a <= 31).
  { unfold days_in_month in Hda.
    destruct (month_cases _ Hma) as [E|[E|[E|[E|[E|[E|[E|[E|[E|[E|[E|E]]]]]]]]]]];
      rewrite E in Hda; destruct (is_leap (year a)); simpl in Hda; lia. }
  assert (Hdb' : 1 <= day b <= 31).
  { unfold days_in_month in Hdb.
    destruct (month_cases _ Hmb) as [E|[E|[E|[E|[E|[E|[E|[E|[E|[E|[E|E]]]]]]]]]]];
      rewrite E in Hdb; destruct (is_leap (year b)); simpl in Hdb; lia. }
  unfold isoformat in H.
  apply pad4_eq in H as [Ey H]; [|lia..].
  apply literal_eq in H. apply pad2_eq in H as [Em H]; [|lia..].
  apply literal_eq in H. apply pad2_eq in H as [Ed H]; [|lia..].
  apply literal_eq in H. apply pad2_eq in H as [Eh H]; [|lia..].
  apply literal_eq in H. apply pad2_eq in H as [Emi H]; [|lia..].
  apply literal_eq in H. apply pad2_eq in H as [Es H]; [|lia..].
  assert (Eu : microsecond a = microsecond b).
  { destruct (microsecond a =? 0) eqn:Ea; destruct (microsecond b =? 0) eqn:Eb.
    - apply Z.eqb_eq in Ea, Eb. lia.
    - rewrite append_cons in H. discriminate.
    - rewrite append_cons in H. discriminate.
    - apply literal_eq in H.
      rewrite <- (append_empty_r (pad6 (microsecond a))) in H.
      rewrite <- (append_empty_r (pad6 (microsecond b))) in H.
      apply pad6_eq in H as [Eu _]; [exact Eu | lia..]. }
  destruct a, b. simpl in *. subst. reflexivity.
Qed.

Lemma on_export_json_returns net now d w filename report w' :
  on_export_json net now d w = (Returns (filename, report), w') ->
  exists r c n,
    report = JObj [("domain", JStr d);
                   ("certificate", cert_info_json r);
                   ("cipher", cipher_info_json c);
                   ("ct_log_entries", JInt n);
                   ("scan_time", JStr (isoformat now))].
Proof.
  unfold on_export_json, bind, lift, ret.
  destruct (get_cert_info net d w) as [[r|e|] w1]; try discriminate.
  destruct (analyze_cipher_strength net d w1) as [[c|e|] w2]; try discriminate.
  destruct (check_cert_transparency net d w2) as [[v|e|] w3]; try discriminate.
  destruct (len v) as [n|e|]; try discriminate.
  intros H. injection H as <- <- <-. exists r, c, n. reflexivity.
Qed.

(** X12: the report tells when and for which domain it was made: two
    exports that produce the same report were made for the same domain and
    at the same reading of the clock, microseconds included (the readings
    being valid datetimes). *)
Theorem equal_reports_same_time net1 now1 d1 w1 f1 w1' net2 now2 d2 w2 f2 w2' report :
  datetime_ok now1 = true -> datetime_ok now2 = true ->
  on_export_json net1 now1 d1 w1 = (Returns (f1, report), w1') ->
  on_export_json net2 now2 d2 w2 = (Returns (f2, report), w2') ->
  d1 = d2 /\ now1 = now2.
Proof.
  intros Hn1 Hn2 H1 H2.
  apply on_export_json_returns in H1 as (r1 & c1 & n1 & E1).
  apply on_export_json_returns in H2 as (r2 & c2 & n2 & E2).
  rewrite E1 in E2. injection E2. intros.
  split; [congruence|]. apply isoformat_eq; [assumption | assumption | congruence].
Qed.

Lemma equal_reports_same_time_witness :
  (on_export_json live noon_2024_12_31 "www.example.com" fresh_world).1
  = (on_export_json live noon_2024_12_31 "www.example.com" site_world).1 /\
  "www.example.com" = "www.example.com" /\ noon_2024_12_31 = noon_2024_12_31.
Proof.
  split; [vm_compute; reflexivity|].
  eapply (equal_reports_same_time
            live noon_2024_12_31 "www.example.com" fresh_world
            "ssl_report_www_example_com.json"
            (on_export_json live noon_2024_12_31 "www.example.com" fresh_world).2
            live noon_2024_12_31 "www.example.com" site_world
            "ssl_report_www_example_com.json"
            (on_export_json live noon_2024_12_31 "www.example.com" site_world).2);
    [reflexivity | reflexivity | vm_compute; reflexivity | vm_compute; reflexivity].
Defined.

(** ** Self-signed detection on plain names *)

Lemma first_pairs_single_valued (name : list rdn) :
  Forall (fun x : rdn => List.length x = 1%nat) name ->
  first_pairs name = Returns (concat name) /\
  name = (fun kv => [kv]) <$> concat name.
Proof.
  induction 1 as [|x name Hx _ [IH1 IH2]]; [split; reflexivity|].
  destruct x as [|kv [|kv' x]]; try discriminate.
  simpl. rewrite IH1. split; [reflexivity|]. f_equal. exact IH2.
Qed.

Lemma dict_eq_Permutation (p q : list (string * string)) :
  NoDup p.*1 -> NoDup q.*1 -> (dict p = dict q <-> p ≡ₚ q).
Proof.
  intros Hp Hq. split.
  - intros E. apply NoDup_Permutation.
    + eapply NoDup_fmap_1. exact Hp.
    + eapply NoDup_fmap_1. exact Hq.
    + intros [k v]. rewrite <- !dict_lookup_NoDup by assumption. rewrite E. reflexivity.
  - intros E. apply dict_Permutation; assumption.
Qed.

(** X13: when each RDN of the issuer and of the subject holds one attribute
    and no attribute name occurs twice in either, the record [get_cert_info]
    builds is marked self-signed exactly when issuer and subject consist of
    the same RDNs, in any order. *)
Theorem self_signed_on_simple_names d c r iss sub :
  built_from d c r ->
  cert_issuer c = Some iss -> cert_subject c = Some sub ->
  simple_name iss -> simple_name sub ->
  (is_self_signed r = true <-> iss ≡ₚ sub).
Proof.
  intros Hb Hi Hs [Hi1 Hi2] [Hs1 Hs2].
  destruct (cert_info_of_returns d c r fresh_world fresh_world (Hb fresh_world))
    as (iss' & sub' & ipairs & spairs & nb & na & Hi' & Hs' & Hip & Hsp & _ & _ & _ & Hr).
  assert (iss' = iss) by congruence. assert (sub' = sub) by congruence. subst iss' sub'.
  destruct (first_pairs_single_valued iss Hi1) as [Ei Li].
  destruct (first_pairs_single_valued sub Hs1) as [Es Ls].
  assert (ipairs = concat iss) by congruence. assert (spairs = concat sub) by congruence.
  subst ipairs spairs.
  rewrite Hr. cbn [is_self_signed]. rewrite bool_decide_eq_true.
  rewrite (dict_eq_Permutation _ _ Hi2 Hs2). split.
  - intros E. rewrite Li, Ls. apply fmap_Permutation. exact E.
  - intros E.
    assert (Hc : forall n : list rdn,
               Forall (fun x : rdn => List.length x = 1%nat) n ->
               concat n = (fun x : rdn => default ("", "") (head x)) <$> n).
    { induction 1 as [|x n Hx _ IH]; [reflexivity|].
      destruct x as [|kv [|kv' x]]; try discriminate. simpl. f_equal. exact IH. }
    rewrite (Hc iss Hi1), (Hc sub Hs1). apply fmap_Permutation. exact E.
Qed.

Lemma self_signed_on_simple_names_witness :
  built_from "ca.example" root_cert root_info /\
  simple_name ca_name /\ simple_name ca_name_reordered /\
  (is_self_signed root_info = true <-> ca_name ≡ₚ ca_name_reordered).
Proof.
  assert (Hb : built_from "ca.example" root_cert root_info).
  { apply (cert_info_of_built _ _ _ fresh_world fresh_world). vm_compute. reflexivity. }
  assert (H1 : simple_name ca_name).
  { split; [repeat constructor|]. apply (bool_decide_unpack _). vm_compute. reflexivity. }
  assert (H2 : simple_name ca_name_reordered).
  { split; [repeat constructor|]. apply (bool_decide_unpack _). vm_compute. reflexivity. }
  split; [exact Hb|]. split; [exact H1|]. split; [exact H2|].
  apply (self_signed_on_simple_names "ca.example" root_cert root_info
           ca_name ca_name_reordered Hb eq_refl eq_refl H1 H2).
Defined.

(** ** Check Ciphers: the verdict shown *)

Lemma length_append (a b : string) :
  String.length (a ++ b) = (String.length a + String.length b)%nat.
Proof. induction a as [|c a IH]; [reflexivity|]. rewrite append_cons. simpl. rewrite IH. reflexivity. Qed.

Lemma last_two_cons c s :
  (2 <= String.length s)%nat -> last_two (String c s) = last_two s.
Proof.
  destruct s as [|a [|b s]]; simpl; intros H; try lia. reflexivity.
Qed.

Lemma last_two_append (p s : string) :
  (2 <= String.length s)%nat -> last_two (p ++ s) = last_two s.
Proof.
  intros H. induction p as [|c p IH]; [reflexivity|].
  rewrite append_cons, last_two_cons; [exact IH|].
  rewrite length_append. lia.
Qed.

Lemma on_check_ciphers_some net d out w c w1 :
  analyze_cipher_strength net d w = (Returns (Some c), w1) ->
  exists body,
    on_check_ciphers net d out w
    = (Returns (out ++ body ++ (if is_weak c then weak_line else secure_line)), w1).
Proof.
  intros H. unfold on_check_ciphers, bind, ret. rewrite H.
  eexists (String "010" "=== Cipher Analysis ===" ++ String "010" ""
           ++ "Protocol: " ++ protocol c ++ String "010" ""
           ++ "Cipher: " ++ cipher_name c ++ " (" ++ str (bits c) ++ " bits)"
           ++ String "010" "").
  destruct (is_weak c); rewrite ?append_assoc; reflexivity.
Qed.

(** X14: when the analyzer returns an assessment, the Check Ciphers branch
    keeps what the output pane showed and adds to it; the pane then ends
    with the weak-cipher line exactly when the assessment is weak, and with
    the secure line exactly when it is not. *)
Theorem check_ciphers_verdict net d out w c w1 :
  analyze_cipher_strength net d w = (Returns (Some c), w1) ->
  exists out',
    on_check_ciphers net d out w = (Returns out', w1) /\
    (exists added, out' = out ++ added) /\
    (ends_with weak_line out' <-> is_weak c = true) /\
    (ends_with secure_line out' <-> is_weak c = false).
Proof.
  intros H. destruct (on_check_ciphers_some net d out w c w1 H) as [body Hout].
  eexists. split; [exact Hout|]. split; [eexists; reflexivity|].
  assert (Hne : forall p q, p ++ weak_line <> q ++ secure_line).
  { intros p q E. apply (f_equal last_two) in E.
    rewrite !last_two_append in E by (vm_compute; lia).
    vm_compute in E. discriminate. }
  destruct (is_weak c); split; split; intros Hx; try reflexivity; try discriminate.
  - exists (out ++ body). rewrite !append_assoc. reflexivity.
  - destruct Hx as [pre E]. exfalso. rewrite <- append_assoc in E.
    exact (Hne _ _ E).
  - destruct Hx as [pre E]. exfalso. rewrite <- append_assoc in E.
    symmetry in E. exact (Hne _ _ E).
  - exists (out ++ body). rewrite !append_assoc. reflexivity.
Qed.

Lemma check_ciphers_verdict_witness :
  exists out',
    (on_check_ciphers live_later "ca.example" "Scanning..." fresh_world).1 = Returns out' /\
    ends_with weak_line out'.
Proof.
  destruct (check_ciphers_verdict live_later "ca.example" "Scanning..." fresh_world
              {| cipher_name := "ECDHE-RSA-DES-CBC3-SHA"; protocol := "TLSv1.2";
                 bits := 112; is_weak := true |}
              (analyze_cipher_strength live_later "ca.example" fresh_world).2)
    as (out' & Hout & _ & Hweak & _).
  - vm_compute. reflexivity.
  - exists out'. rewrite Hout. split; [reflexivity|]. apply Hweak. reflexivity.
Defined.

(** ** The ASCII preview *)

Lemma shade_index (pixel : Z) :
  0 <= pixel <= 255 ->
  0 <= pixel * 10 / 256 <= 9 /\ Z.min (10 - 1) (pixel * 10 / 256) = pixel * 10 / 256.
Proof. intros H. split; [|apply Z.min_r]; Z.div_mod_to_equations; lia. Qed.

Lemma str_getitem_palette (i : Z) :
  0 <= i <= 9 ->
  exists c, str_getitem ascii_chars i = Returns c /\
            String.get (Z.to_nat i) ascii_chars = Some c.
Proof.
  intros H.
  assert (Hi : i = 0 \/ i = 1 \/ i = 2 \/ i = 3 \/ i = 4 \/ i = 5 \/ i = 6 \/ i = 7 \/
               i = 8 \/ i = 9) by lia.
  destruct Hi as [->|[->|[->|[->|[->|[->|[->|[->|[->| ->]]]]]]]]];
    eexists; split; reflexivity.
Qed.

Lemma get_append_left (a b : string) (i : nat) :
  (i < String.length a)%nat -> String.get i (a ++ b) = String.get i a.
Proof.
  revert i. induction a as [|c a IH]; intros i H; simpl in H; [lia|].
  rewrite append_cons. destruct i; simpl; [reflexivity|]. apply IH. lia.
Qed.

Lemma get_append_right (a b : string) (i : nat) :
  String.get (String.length a + i) (a ++ b) = String.get i b.
Proof.
  induction a as [|c a IH]; [reflexivity|]. rewrite append_cons. simpl. exact IH.
Qed.

Lemma preview_line_spec getpixel y xs line :
  (forall x, 0 <= getpixel x y <= 255) ->
  exists s,
    preview_line getpixel y xs line = Returns (line ++ s) /\
    String.length s = List.length xs /\
    forall i x, xs !! i = Some x -> String.get i s = shade (getpixel x y).
Proof.
  intros Hpix. revert line. induction xs as [|x xs IH]; intros line.
  - exists "". simpl. rewrite append_empty_r. split; [reflexivity|]. split; [reflexivity|].
    intros i x H. discriminate.
  - cbn [preview_line].
    change (Z.of_nat (String.length ascii_chars)) with 10.
    destruct (shade_index (getpixel x y) (Hpix x)) as [Hr ->].
    destruct (str_getitem_palette _ Hr) as (c & -> & Hc).
    destruct (IH (line ++ String c "")) as (s & Hs & Hl & Hget).
    exists (String c s). rewrite Hs, append_assoc.
    split; [reflexivity|]. split; [simpl; rewrite Hl; reflexivity|].
    intros [|i] x' H; simpl in H.
    + injection H as <-. simpl. symmetry. exact Hc.
    + simpl. apply Hget, H.
Qed.

Lemma range_lookup (n : Z) (i : nat) (x : Z) :
  range n !! i = Some x <-> x = Z.of_nat i /\ (i < Z.to_nat n)%nat.
Proof.
  unfold range. rewrite list_lookup_fmap. split.
  - destruct (seq 0 (Z.to_nat n) !! i) as [j|] eqn:E; simpl; [|discriminate].
    apply lookup_seq in E as [-> Hi]. intros H. injection H as <-. auto.
  - intros [-> Hi]. rewrite lookup_seq_lt by exact Hi. reflexivity.
Qed.

Lemma range_length (n : Z) : List.length (range n) = Z.to_nat n.
Proof. unfold range. rewrite length_map, length_seq. reflexivity. Qed.

Lemma preview_lines_spec getpixel width ys printed :
  (forall x y, 0 <= getpixel x y <= 255) ->
  exists rows,
    preview_lines getpixel width ys printed = ((printed ++ rows)%list, None) /\
    List.length rows = List.length ys /\
    forall j y, ys !! j = Some y ->
      exists row, rows !! j = Some row /\
                  String.length row = Z.to_nat width /\
                  forall i x, range width !! i = Some x ->
                              String.get i row = shade (getpixel x y).
Proof.
  intros Hpix. revert printed. induction ys as [|y ys IH]; intros printed.
  - exists []. simpl. rewrite app_nil_r. split; [reflexivity|]. split; [reflexivity|].
    intros j y H. discriminate.
  - cbn [preview_lines].
    destruct (preview_line_spec getpixel y (range width) "" (fun x => Hpix x y))
      as (s & -> & Hl & Hget).
    change ("" ++ s) with s.
    destruct (IH (printed ++ [s])%list) as (rows & -> & Hlen & Hrows).
    exists (s :: rows). rewrite <- app_assoc.
    split; [reflexivity|]. split; [simpl; rewrite Hlen; reflexivity|].
    intros [|j] y' H; simpl in H.
    + injection H as <-. exists s. split; [reflexivity|].
      split; [rewrite Hl; apply range_length | exact Hget].
    + apply Hrows, H.
Qed.

(** X15: for an image whose pixels are 8-bit grey levels (0 to 255), the
    preview loop never indexes outside the palette and ends without an
    exception, having printed the heading and 25 lines of 80 characters;
    the character at column x of line y is the palette character at index
    pixel * 10 // 256 for the pixel at (x, y), an index between 0 and 9
    which the [min] in the code never has to cut, and which does not
    decrease when the pixel gets brighter. *)
Theorem ascii_preview_in_bounds (getpixel : Z -> Z -> Z) :
  (forall x y, 0 <= getpixel x y <= 255) ->
  exists rows,
    ascii_preview getpixel = (String "010" "Image Preview (ASCII):" :: rows, None) /\
    List.length rows = 25%nat /\
    (forall x y, 0 <= x < 80 -> 0 <= y < 25 ->
       exists row c,
         rows !! Z.to_nat y = Some row /\
         String.length row = 80%nat /\
         String.get (Z.to_nat x) row = Some c /\
         shade (getpixel x y) = Some c) /\
    (forall p q, 0 <= p <= q -> q <= 255 ->
       0 <= p * 10 / 256 <= q * 10 / 256 /\ q * 10 / 256 <= 9).
Proof.
  intros Hpix. unfold ascii_preview.
  destruct (preview_lines_spec getpixel 80 (range 25)
              [String "010" "Image Preview (ASCII):"] Hpix)
    as (rows & Hrun & Hlen & Hrows).
  exists rows. split; [exact Hrun|]. split; [rewrite Hlen; reflexivity|]. split.
  - intros x y Hx Hy.
    destruct (Hrows (Z.to_nat y) y) as (row & Hrow & Hlrow & Hget).
    { apply range_lookup. split; lia. }
    destruct (shade_index (getpixel x y) (Hpix x y)) as [Hr _].
    destruct (str_getitem_palette _ Hr) as (c & _ & Hc).
    exists row, c. split; [exact Hrow|]. split; [exact Hlrow|].
    rewrite (Hget (Z.to_nat x) x); [|apply range_lookup; split; lia].
    split; exact Hc.
  - intros p q Hp Hq. Z.div_mod_to_equations. lia.
Qed.

Lemma ascii_preview_in_bounds_witness :
  exists rows,
    ascii_preview (fun x y => (x + y) mod 256)
      = (String "010" "Image Preview (ASCII):" :: rows, None) /\
    List.length rows = 25%nat.
Proof.
  destruct (ascii_preview_in_bounds (fun x y => (x + y) mod 256))
    as (rows & Hrun & Hlen & _).
  - intros x y. pose proof (Z.mod_pos_bound (x + y) 256). lia.
  - exists rows. split; [exact Hrun | exact Hlen].
Defined.

(** ** The list of book pages *)

Lemma book_urls_of_length base links :
  (List.length (book_urls_of base links) <= List.length links)%nat.
Proof.
  induction links as [|link links IH]; simpl; [lia|].
  destruct (attrs link !! "href") as [href|]; [|lia].
  destruct (String.eqb href ""); simpl; lia.
Qed.

Lemma book_urls_of_shape links :
  Forall (fun u => u <> "" /\
                   (String.prefix "https://openlibrary.org/" u = true \/
                    String.prefix "/" u = false))
         (book_urls_of "https://openlibrary.org" links).
Proof.
  induction links as [|link links IH]; simpl; [constructor|].
  destruct (attrs link !! "href") as [href|]; [|exact IH].
  destruct (String.eqb href "") eqn:E; [exact IH|].
  apply String.eqb_neq in E. constructor; [|exact IH].
  destruct (String.prefix "/" href) eqn:P.
  - apply prefix_app in P as [post ->]. split; [discriminate|].
    left. apply prefix_app. exists post. reflexivity.
  - split; [exact E | right; exact P].
Qed.

Lemma slice_to_length {A} (l : list A) (n : Z) :
  0 <= n -> Z.of_nat (List.length (slice_to l n)) <= n.
Proof.
  intros H. unfold slice_to. destruct (0 <=? n) eqn:E; [|apply Z.leb_gt in E; lia].
  rewrite length_take. lia.
Qed.

(** X16: [get_book_urls] never raises.  The list it returns has at most
    [num_books] entries when [num_books] is not negative; no entry is empty;
    each entry either starts with https://openlibrary.org/ (a site-relative
    link made absolute) or is a link that did not start with a slash, kept
    as it was.  When the request fails or the status is 400 to 599 the list
    is empty. *)
Theorem get_book_urls_contract fetch num_books w :
  (forall e, (get_book_urls fetch num_books w).1 <> Raises e) /\
  (forall urls,
     (get_book_urls fetch num_books w).1 = Returns urls ->
     (0 <= num_books -> Z.of_nat (List.length urls) <= num_books) /\
     Forall (fun u => u <> "" /\
                      (String.prefix "https://openlibrary.org/" u = true \/
                       String.prefix "/" u = false)) urls) /\
  (forall t e,
     fetch "https://openlibrary.org/trending/daily" = Failure t e ->
     (get_book_urls fetch num_books w).1 = Returns []) /\
  (forall t p,
     fetch "https://openlibrary.org/trending/daily" = Answer t p ->
     400 <= page_status p < 600 ->
     (get_book_urls fetch num_books w).1 = Returns []).
Proof.
  unfold get_book_urls. unfold_m. simpl.
  change ("https://openlibrary.org" ++ "/trending/daily")
    with "https://openlibrary.org/trending/daily".
  destruct (fetch "https://openlibrary.org/trending/daily") as [t p|t e|]; simpl.
  - destruct ((400 <=? page_status p) && (page_status p <? 600)) eqn:E; simpl;
      (split; [discriminate|]); (split; [|split; [discriminate|]]).
    + intros urls H. injection H as <-. split; [simpl; lia | constructor].
    + reflexivity.
    + intros urls H. injection H as <-. split.
      * intros Hn.
        pose proof (book_urls_of_length "https://openlibrary.org"
                      (slice_to (select p "a.results") num_books)).
        pose proof (slice_to_length (select p "a.results") num_books Hn). lia.
      * apply book_urls_of_shape.
    + intros t' p' H Hs. injection H as <- <-.
      apply andb_false_iff in E as [E|E]; [apply Z.leb_gt in E | apply Z.ltb_ge in E]; lia.
  - split; [discriminate|]. split; [|split; [reflexivity | discriminate]].
    intros urls H. injection H as <-. split; [simpl; lia | constructor].
  - split; [discriminate|]. split; [discriminate|]. split; discriminate.
Qed.

Lemma get_book_urls_contract_witness :
  (get_book_urls
     (fun _ => Answer 1 {| page_status := 200;
                           select := fun _ =>
                             [{| attrs := {["href" := "/works/OL1W"]} |};
                              {| attrs := ∅ |};
                              {| attrs := {["href" := "https://example.org/b"]} |};
                              {| attrs := {["href" := "/works/OL2W"]} |}] |})
     3 fresh_world).1
  = Returns ["https://openlibrary.org/works/OL1W"; "https://example.org/b"] /\
  (2 <= 3)%nat.
Proof.
  split; [vm_compute; reflexivity|].
  pose proof (get_book_urls_contract
                (fun _ => Answer 1 {| page_status := 200;
                           select := fun _ =>
                             [{| attrs := {["href" := "/works/OL1W"]} |};
                              {| attrs := ∅ |};
                              {| attrs := {["href" := "https://example.org/b"]} |};
                              {| attrs := {["href" := "/works/OL2W"]} |}] |})
                3 fresh_world) as (_ & H & _).
  destruct (H ["https://openlibrary.org/works/OL1W"; "https://example.org/b"])
    as [Hlen _]; [vm_compute; reflexivity|].
  specialize (Hlen ltac:(lia)). simpl in Hlen. lia.
Defined.
